(** * The activation engine of dll's Restricted Boltzmann Machine

    A shallow embedding of [include/dll/rbm.inl]: the hidden activation step
    [activate_hidden], the visible activation step [activate_visible] and the
    inference facade [activation_probabilities], over an interface for the
    tensor library (ETL) the header is written against.

    Layout: the unit policies and the model descriptor, the tensor-library
    interface, the engine written once over that interface, then one
    instance of the interface over the reals extended with the IEEE special
    values, and the properties of the engine. *)

From Stdlib Require Import Reals Lra List Bool Arith Lia.
Import ListNotations.

Set Implicit Arguments.

(** ** Unit policies and the model descriptor *)

(** Modelled from the spec: the enumeration [unit_type] ([unit_type.hpp] is
    not part of the sources); the spec's data model lists the six tags. *)
Inductive unit_type : Type :=
  | BINARY
  | GAUSSIAN
  | RELU
  | RELU1
  | RELU6
  | SOFTMAX.

(** [hidden_unit == unit_type::BINARY] and the like. *)
Definition unit_type_eqb (a b : unit_type) : bool :=
  match a, b with
  | BINARY, BINARY | GAUSSIAN, GAUSSIAN | RELU, RELU
  | RELU1, RELU1 | RELU6, RELU6 | SOFTMAX, SOFTMAX => true
  | _, _ => false
  end.

Declare Scope unit_scope.
Delimit Scope unit_scope with unit.
Infix "==" := unit_type_eqb (at level 70, no associativity) : unit_scope.
Local Open Scope unit_scope.

(** The template parameter [Desc] of [rbm<Desc>]: the compile-time constants
    the struct reads from it ([desc::weight] is the carrier of the tensor
    interface below). *)
Record Desc : Type := mkDesc {
  num_visible : nat;
  num_hidden : nat;
  visible_unit : unit_type;
  hidden_unit : unit_type
}.

(** ** The tensor library

    [rbm.inl] is written against ETL's expression functions and never looks
    inside them.  The interface lists exactly the functions the header
    calls, at element type [weight]; [rng] is the state of the process-wide
    random engine the sampling functions draw from, threaded explicitly. *)
Class Etl : Type := {
  weight : Type;
  rng : Type;
  (* the literals 0.0, 1.0 and 6.0 *)
  lit0 : weight;
  lit1 : weight;
  lit6 : weight;
  (* [x + y] on two vector expressions *)
  plus : list weight -> list weight -> list weight;
  (* the product computed by [auto_vmmul(v, w, t)]: row vector times matrix *)
  vmmul : list weight -> list (list weight) -> list weight;
  (* the product computed by [auto_vmmul(w, h, t)]: matrix times column vector *)
  mvmul : list (list weight) -> list weight -> list weight;
  sigmoid : list weight -> list weight;
  max : list weight -> weight -> list weight;
  min : list weight -> weight -> list weight;
  softmax : list weight -> list weight;
  one_if_max : list weight -> list weight;
  bernoulli : list weight -> rng -> list weight * rng;
  logistic_noise : list weight -> rng -> list weight * rng;
  ranged_noise : list weight -> weight -> rng -> list weight * rng;
  (* [std::isfinite] *)
  isfinite : weight -> bool
}.

Declare Scope etl_scope.
Delimit Scope etl_scope with etl.
Infix "+" := plus : etl_scope.

Section Engine.

Context {E : Etl}.

(** [etl::fast_vector<weight, n>] and [etl::dyn_vector<weight>] *)
Definition tensor : Type := list weight.
(** [etl::fast_matrix<weight, num_visible, num_hidden>], by rows *)
Definition matrix : Type := list (list weight).

Variable desc : Desc.

(** The members of [struct rbm]. *)
Record rbm : Type := mkRbm {
  w : matrix;
  b : tensor;
  c : tensor;
  v1 : tensor;
  h1_a : tensor;
  h1_s : tensor;
  v2_a : tensor;
  v2_s : tensor;
  h2_a : tensor;
  h2_s : tensor
}.

Definition input_size : nat := num_visible desc.
Definition output_size : nat := num_hidden desc.

(** Modelled from the spec: [nan_check_deep] ([checks.hpp] is not part of
    the sources): it scans every element and fails the assertion when one
    is NaN or infinite.  [true] means every assertion held. *)
Definition nan_check_deep (l : tensor) : bool := forallb isfinite l.

(** [auto_vmmul(x, y, t)] stores the product in the scratch [t] and yields
    [t]; the value returned here is the new content of [t]. *)
Definition auto_vmmul_vm (v : tensor) (m : matrix) (t : tensor) : tensor :=
  vmmul v m.
Definition auto_vmmul_mv (m : matrix) (h : tensor) (t : tensor) : tensor :=
  mvmul m h.

(** What a step can write: the two output tensors it holds by reference,
    the scratch matrix and the random engine. *)
Record outs : Type := mkOuts {
  out_a : tensor;
  out_s : tensor;
  out_t : tensor;
  out_g : rng
}.

(** [x_a = e], where [e] reads the scratch freshly written as [t]. *)
Definition assign_a (o : outs) (t : tensor) (e : tensor) : outs :=
  {| out_a := e; out_s := out_s o; out_t := t; out_g := out_g o |}.

(** [x_s = e], where [e] reads the scratch freshly written as [t] and may
    draw from the random engine. *)
Definition assign_s (o : outs) (t : tensor) (e : tensor * rng) : outs :=
  {| out_a := out_a o; out_s := fst e; out_t := t; out_g := snd e |}.

(** The two calls of [nan_check_deep] that end each step: [None] is the
    failed assertion. *)
Definition checked (o : outs) : option outs :=
  if nan_check_deep (out_a o) then
    if nan_check_deep (out_s o) then Some o else None
  else None.

(** *** The hidden activation step, lines 102-152 *)

(** The statements of [activate_hidden<P, S>] up to the two checks. *)
Definition activate_hidden_writes (P S : bool) (h_a h_s : tensor)
    (v_a v_s : tensor) (b : tensor) (w : matrix) (t : tensor) (g : rng)
    : outs :=
  let o := {| out_a := h_a; out_s := h_s; out_t := t; out_g := g |} in
  let hidden_unit := hidden_unit desc in
  (* Compute activation probabilities *)
  if P then
    let o :=
      if hidden_unit == BINARY then
        let t := auto_vmmul_vm v_a w (out_t o) in
        assign_a o t (sigmoid (b + t)%etl)
      else if hidden_unit == RELU then
        let t := auto_vmmul_vm v_a w (out_t o) in
        assign_a o t (max (b + t)%etl lit0)
      else if hidden_unit == RELU6 then
        let t := auto_vmmul_vm v_a w (out_t o) in
        assign_a o t (min (max (b + t)%etl lit0) lit6)
      else if hidden_unit == RELU1 then
        let t := auto_vmmul_vm v_a w (out_t o) in
        assign_a o t (min (max (b + t)%etl lit0) lit1)
      else if hidden_unit == SOFTMAX then
        let t := auto_vmmul_vm v_a w (out_t o) in
        assign_a o t (softmax (b + t)%etl)
      else o in
    (* Compute sampled values directly *)
    if S then
      if hidden_unit == BINARY then
        assign_s o (out_t o) (bernoulli (out_a o) (out_g o))
      else if hidden_unit == RELU then
        assign_s o (out_t o) (logistic_noise (out_a o) (out_g o))
      else if hidden_unit == RELU6 then
        assign_s o (out_t o) (ranged_noise (out_a o) lit6 (out_g o))
      else if hidden_unit == RELU1 then
        assign_s o (out_t o) (ranged_noise (out_a o) lit1 (out_g o))
      else if hidden_unit == SOFTMAX then
        assign_s o (out_t o) (one_if_max (out_a o), out_g o)
      else o
    else o
  (* Compute sampled values *)
  else if S then
    if hidden_unit == BINARY then
      let t := auto_vmmul_vm v_a w (out_t o) in
      assign_s o t (bernoulli (sigmoid (b + t)%etl) (out_g o))
    else if hidden_unit == RELU then
      let t := auto_vmmul_vm v_a w (out_t o) in
      assign_s o t (logistic_noise (max (b + t)%etl lit0) (out_g o))
    else if hidden_unit == RELU6 then
      let t := auto_vmmul_vm v_a w (out_t o) in
      assign_s o t
        (ranged_noise (min (max (b + t)%etl lit0) lit6) lit6 (out_g o))
    else if hidden_unit == RELU1 then
      let t := auto_vmmul_vm v_a w (out_t o) in
      assign_s o t
        (ranged_noise (min (max (b + t)%etl lit0) lit1) lit1 (out_g o))
    else if hidden_unit == SOFTMAX then
      let t := auto_vmmul_vm v_a w (out_t o) in
      assign_s o t (one_if_max (softmax (b + t)%etl), out_g o)
    else o
  else o.

(** [static void activate_hidden(h_a, h_s, v_a, v_s, b, w, t)]: the
    statements, then [nan_check_deep(h_a); nan_check_deep(h_s);]. *)
Definition activate_hidden (P S : bool) (h_a h_s : tensor)
    (v_a v_s : tensor) (b : tensor) (w : matrix) (t : tensor) (g : rng)
    : option outs :=
  checked (activate_hidden_writes P S h_a h_s v_a v_s b w t g).

(** *** The visible activation step, lines 168-194 *)

Definition activate_visible_writes (P S : bool) (h_a h_s : tensor)
    (v_a v_s : tensor) (c : tensor) (w : matrix) (t : tensor) (g : rng)
    : outs :=
  let o := {| out_a := v_a; out_s := v_s; out_t := t; out_g := g |} in
  let visible_unit := visible_unit desc in
  let o :=
    if P then
      if visible_unit == BINARY then
        let t := auto_vmmul_mv w h_s (out_t o) in
        assign_a o t (sigmoid (c + t)%etl)
      else if visible_unit == GAUSSIAN then
        let t := auto_vmmul_mv w h_s (out_t o) in
        assign_a o t (c + t)%etl
      else if visible_unit == RELU then
        let t := auto_vmmul_mv w h_s (out_t o) in
        assign_a o t (max (c + t)%etl lit0)
      else o
    else o in
  if S then
    if visible_unit == BINARY then
      let t := auto_vmmul_mv w h_s (out_t o) in
      assign_s o t (bernoulli (sigmoid (c + t)%etl) (out_g o))
    else if visible_unit == GAUSSIAN then
      let t := auto_vmmul_mv w h_s (out_t o) in
      assign_s o t ((c + t)%etl, out_g o)
    else if visible_unit == RELU then
      let t := auto_vmmul_mv w h_s (out_t o) in
      assign_s o t (logistic_noise (max (c + t)%etl lit0) (out_g o))
    else o
  else o.

(** [static void activate_visible(h_a, h_s, v_a, v_s, c, w, t)] *)
Definition activate_visible (P S : bool) (h_a h_s : tensor)
    (v_a v_s : tensor) (c : tensor) (w : matrix) (t : tensor) (g : rng)
    : option outs :=
  checked (activate_visible_writes P S h_a h_s v_a v_s c w t g).

(** *** The overloads that supply the model's parameters and the scratch *)

(** The function-local statics and the random engine.  A [static] local of
    a function template exists once per instantiation, hence the scratch
    matrices are indexed by the flags [P] and [S]. *)
Record statics : Type := mkStatics {
  hidden_t : bool -> bool -> tensor;
  visible_t : bool -> bool -> tensor;
  next_s : tensor;
  rand_engine : rng
}.

Definition set_scratch (f : bool -> bool -> tensor) (P S : bool)
    (t : tensor) : bool -> bool -> tensor :=
  fun P' S' => if Bool.eqb P P' && Bool.eqb S S' then t else f P' S'.

(** Lines 95-100: [static etl::fast_matrix<weight, 1, num_hidden> t]. *)
Definition activate_hidden_static (P S : bool) (h_a h_s : tensor)
    (v_a v_s : tensor) (b : tensor) (w : matrix) (st : statics)
    : option (tensor * tensor * statics) :=
  match activate_hidden P S h_a h_s v_a v_s b w
          (hidden_t st P S) (rand_engine st) with
  | Some o =>
      Some (out_a o, out_s o,
            {| hidden_t := set_scratch (hidden_t st) P S (out_t o);
               visible_t := visible_t st;
               next_s := next_s st;
               rand_engine := out_g o |})
  | None => None
  end.

(** Lines 85-88: the member overload, with the model's [b] and [w]. *)
Definition activate_hidden_rbm (P S : bool) (r : rbm) (h_a h_s : tensor)
    (v_a v_s : tensor) (st : statics)
    : option (tensor * tensor * statics) :=
  activate_hidden_static P S h_a h_s v_a v_s (b r) (w r) st.

(** Lines 90-93: the member overload with a scratch of the caller. *)
Definition activate_hidden_rbm_t (P S : bool) (r : rbm) (h_a h_s : tensor)
    (v_a v_s : tensor) (t : tensor) (g : rng) : option outs :=
  activate_hidden P S h_a h_s v_a v_s (b r) (w r) t g.

(** Lines 163-166: the member overload with a scratch of the caller. *)
Definition activate_visible_rbm_t (P S : bool) (r : rbm) (h_a h_s : tensor)
    (v_a v_s : tensor) (t : tensor) (g : rng) : option outs :=
  activate_visible P S h_a h_s v_a v_s (c r) (w r) t g.

(** Lines 154-161: [static fast_matrix<weight, num_visible, 1> t]. *)
Definition activate_visible_rbm (P S : bool) (r : rbm) (h_a h_s : tensor)
    (v_a v_s : tensor) (st : statics)
    : option (tensor * tensor * statics) :=
  match activate_visible P S h_a h_s v_a v_s (c r) (w r)
          (visible_t st P S) (rand_engine st) with
  | Some o =>
      Some (out_a o, out_s o,
            {| hidden_t := hidden_t st;
               visible_t := set_scratch (visible_t st) P S (out_t o);
               next_s := next_s st;
               rand_engine := out_g o |})
  | None => None
  end.

(** *** The inference facade, lines 196-212 *)

(** [void activation_probabilities(item_data, result)]: [item] is a copy of
    the sample, [next_s] the static sample buffer, and the step is called
    with its default template arguments [P = true, S = true].  The result
    is the new content of [result]. *)
Definition activation_probabilities_into (r : rbm) (item_data : tensor)
    (result : tensor) (st : statics) : option (tensor * statics) :=
  let item := item_data in
  match activate_hidden_rbm true true r result (next_s st) item item st with
  | Some (h_a, h_s, st') =>
      Some (h_a,
            {| hidden_t := hidden_t st';
               visible_t := visible_t st';
               next_s := h_s;
               rand_engine := rand_engine st' |})
  | None => None
  end.

(** [etl::dyn_vector<weight> activation_probabilities(item_data)]: the
    result vector is created with [output_size()] elements, which
    [dyn_vector]'s sizing constructor value-initialises. *)
Definition activation_probabilities (r : rbm) (item_data : tensor)
    (st : statics) : option (tensor * statics) :=
  let result := repeat lit0 output_size in
  activation_probabilities_into r item_data result st.

End Engine.

Arguments rbm : clear implicits.
Arguments outs : clear implicits.
Arguments statics : clear implicits.

(** ** An instance of the tensor library: extended reals

    [weight] is [float] or [double] in the program.  The instance models it
    by the real numbers extended with the IEEE special values: arithmetic
    on finite values is exact (no rounding, no overflow), the infinities and
    NaN follow IEEE 754, and the two zeros are identified (a division of a
    positive number by zero gives [+inf]). *)

Inductive xreal : Type :=
  | Num (r : R)
  | PInf
  | NInf
  | NaN.

(** The sign of a value: [Some true] positive, [Some false] negative,
    [None] for zero and NaN. *)
Definition xsign (x : xreal) : option bool :=
  match x with
  | Num r => if Rlt_dec 0 r then Some true
             else if Rlt_dec r 0 then Some false else None
  | PInf => Some true
  | NInf => Some false
  | NaN => None
  end.

Definition xinf (positive : bool) : xreal := if positive then PInf else NInf.

Definition xneg (x : xreal) : xreal :=
  match x with
  | Num r => Num (- r)
  | PInf => NInf
  | NInf => PInf
  | NaN => NaN
  end.

Definition xadd (x y : xreal) : xreal :=
  match x, y with
  | NaN, _ | _, NaN => NaN
  | Num a, Num b => Num (a + b)
  | PInf, NInf | NInf, PInf => NaN
  | PInf, _ | _, PInf => PInf
  | NInf, _ | _, NInf => NInf
  end.

Definition xmul (x y : xreal) : xreal :=
  match x, y with
  | Num a, Num b => Num (a * b)
  | _, _ =>
      match xsign x, xsign y with
      | Some s1, Some s2 => xinf (Bool.eqb s1 s2)
      | _, _ => NaN
      end
  end.

Definition xdiv (x y : xreal) : xreal :=
  match x, y with
  | NaN, _ | _, NaN => NaN
  | Num a, Num b =>
      if Req_dec_T b 0 then
        match xsign x with Some s => xinf s | None => NaN end
      else Num (a / b)
  | Num _, _ => Num 0
  | _, Num b =>
      match xsign x with
      | Some s => xinf (if Rlt_dec b 0 then negb s else s)
      | None => NaN
      end
  | _, _ => NaN
  end.

Definition xexp (x : xreal) : xreal :=
  match x with
  | Num r => Num (exp r)
  | PInf => PInf
  | NInf => Num 0
  | NaN => NaN
  end.

(** [x < y]: false as soon as one side is NaN. *)
Definition xltb (x y : xreal) : bool :=
  match x, y with
  | NaN, _ | _, NaN => false
  | Num a, Num b => if Rlt_dec a b then true else false
  | NInf, NInf | PInf, _ | _, NInf => false
  | NInf, _ | _, PInf => true
  end.

(** [x == y] *)
Definition xeqb (x y : xreal) : bool :=
  match x, y with
  | Num a, Num b => if Req_dec_T a b then true else false
  | PInf, PInf | NInf, NInf => true
  | _, _ => false
  end.

Definition xisfinite (x : xreal) : bool :=
  match x with Num _ => true | _ => false end.

(** [std::max(a, b)] is [(a < b) ? b : a], [std::min(a, b)] is
    [(b < a) ? b : a]. *)
Definition std_max (a b : xreal) : xreal := if xltb a b then b else a.
Definition std_min (a b : xreal) : xreal := if xltb b a then b else a.

(** *** The expression functions over lists of extended reals *)

Fixpoint zip_with (f : xreal -> xreal -> xreal) (l k : list xreal)
    : list xreal :=
  match l, k with
  | x :: l', y :: k' => f x y :: zip_with f l' k'
  | _, _ => []
  end.

Definition x_plus (l k : list xreal) : list xreal := zip_with xadd l k.

(** Sum of the products of paired elements, from the left. *)
Definition x_dot (l k : list xreal) : xreal :=
  fold_left (fun acc p => xadd acc (xmul (fst p) (snd p))) (combine l k)
            (Num 0).

Definition x_columns (m : list (list xreal)) : nat :=
  match m with
  | [] => 0
  | row :: _ => length row
  end.

Definition x_column (m : list (list xreal)) (j : nat) : list xreal :=
  map (fun row => nth j row (Num 0)) m.

(** Row vector times matrix: element [j] is the dot product of the vector
    with column [j]. *)
Definition x_vmmul (v : list xreal) (m : list (list xreal)) : list xreal :=
  map (fun j => x_dot v (x_column m j)) (seq 0 (x_columns m)).

(** Matrix times column vector: element [i] is the dot product of row [i]
    with the vector. *)
Definition x_mvmul (m : list (list xreal)) (h : list xreal) : list xreal :=
  map (fun row => x_dot row h) m.

(** The logistic function [1 / (1 + exp(-x))]. *)
Definition logistic_sigmoid (x : xreal) : xreal :=
  xdiv (Num 1) (xadd (Num 1) (xexp (xneg x))).

Definition x_sigmoid (l : list xreal) : list xreal := map logistic_sigmoid l.

Definition x_max (l : list xreal) (v : xreal) : list xreal :=
  map (fun x => std_max x v) l.

Definition x_min (l : list xreal) (v : xreal) : list xreal :=
  map (fun x => std_min x v) l.

Definition x_sum (l : list xreal) : xreal := fold_left xadd l (Num 0).

(** The largest element of a vector (of its first element on). *)
Definition x_maximum (l : list xreal) : xreal :=
  match l with
  | [] => Num 0
  | x :: l' => fold_left std_max l' x
  end.

(** Modelled from the spec: ETL's [softmax], which the spec describes as
    numerically stable: the maximum of the vector is subtracted before
    exponentiating, and each exponential is divided by their sum. *)
Definition x_softmax (l : list xreal) : list xreal :=
  let m := x_maximum l in
  let e := map (fun x => xexp (xadd x (xneg m))) l in
  let s := x_sum e in
  map (fun y => xdiv y s) e.

(** The index of the maximum coordinate, the first one when several
    coordinates attain it: [argmax_from i best_i best l] scans [l], whose
    first element has index [i]. *)
Fixpoint argmax_from (i best_i : nat) (best : xreal) (l : list xreal) : nat :=
  match l with
  | [] => best_i
  | x :: l' =>
      if xltb best x then argmax_from (S i) i x l'
      else argmax_from (S i) best_i best l'
  end.

Definition argmax (l : list xreal) : nat :=
  match l with
  | [] => 0
  | x :: l' => argmax_from 1 0 x l'
  end.

(** Modelled from the spec: ETL's [one_if_max], which the spec describes as
    the one-hot vector with a 1 at the index of the maximum coordinate. *)
Definition x_one_if_max (l : list xreal) : list xreal :=
  map (fun i => if Nat.eqb i (argmax l) then Num 1 else Num 0)
      (seq 0 (length l)).

(** The random engine is a tape of draws; an exhausted tape yields zeros. *)
Definition tape : Type := list R.

Definition draw (g : tape) : R * tape :=
  match g with
  | [] => (0%R, [])
  | u :: g' => (u, g')
  end.

(** An elementwise function that may draw from the tape, applied left to
    right. *)
Fixpoint map_draw (f : xreal -> tape -> xreal * tape) (l : list xreal)
    (g : tape) : list xreal * tape :=
  match l with
  | [] => ([], g)
  | x :: l' =>
      let (y, g1) := f x g in
      let (r, g2) := map_draw f l' g1 in
      (y :: r, g2)
  end.

(** Modelled from the spec: ETL's [bernoulli], a coin flip per unit with
    success probability [x]: 1 when [x] exceeds a uniform draw. *)
Definition x_bernoulli (l : list xreal) (g : tape) : list xreal * tape :=
  map_draw (fun x g =>
              let (u, g') := draw g in
              (if xltb (Num u) x then Num 1 else Num 0, g')) l g.

(** Modelled from the spec: ETL's [logistic_noise], the activation perturbed
    by noise of standard deviation [logistic_sigmoid(x)]; the draw is the
    standard normal deviate. *)
Definition x_logistic_noise (l : list xreal) (g : tape)
    : list xreal * tape :=
  map_draw (fun x g =>
              let (n, g') := draw g in
              (xadd x (xmul (logistic_sigmoid x) (Num n)), g')) l g.

(** Modelled from the spec: ETL's [ranged_noise], the activation perturbed
    by standard normal noise unless it sits at an end of its range, where
    it is kept and nothing is drawn. *)
Definition x_ranged_noise (l : list xreal) (v : xreal) (g : tape)
    : list xreal * tape :=
  map_draw (fun x g =>
              if xeqb x (Num 0) || xeqb x v then (x, g)
              else let (n, g') := draw g in (xadd x (Num n), g')) l g.

#[export] Instance xreal_etl : Etl := {|
  weight := xreal;
  rng := tape;
  lit0 := Num 0;
  lit1 := Num 1;
  lit6 := Num 6;
  plus := x_plus;
  vmmul := x_vmmul;
  mvmul := x_mvmul;
  sigmoid := x_sigmoid;
  max := x_max;
  min := x_min;
  softmax := x_softmax;
  one_if_max := x_one_if_max;
  bernoulli := x_bernoulli;
  logistic_noise := x_logistic_noise;
  ranged_noise := x_ranged_noise;
  isfinite := xisfinite
|}.

(** ** Vocabulary of the properties *)

(** Every element passes [std::isfinite]. *)
Definition all_finite {E : Etl} (l : list weight) : Prop :=
  Forall (fun x => isfinite x = true) l.

(** The tags the branches of the hidden step name, and those of the visible
    step. *)
Definition hidden_branch (u : unit_type) : bool :=
  (u == BINARY) || (u == RELU) || (u == RELU6) || (u == RELU1)
  || (u == SOFTMAX).

Definition visible_branch (u : unit_type) : bool :=
  (u == BINARY) || (u == GAUSSIAN) || (u == RELU).

(** The facade as the spec words it: the hidden step called with
    [computeProb = true] and [computeSample = false]. *)
Definition activation_probabilities_prob_only {E : Etl} (desc : Desc)
    (r : rbm E) (item_data : tensor) (result : tensor) (st : statics E)
    : option (tensor * statics E) :=
  let item := item_data in
  match activate_hidden_rbm desc true false r result (next_s st) item item st
  with
  | Some (h_a, h_s, st') =>
      Some (h_a,
            {| hidden_t := hidden_t st';
               visible_t := visible_t st';
               next_s := h_s;
               rand_engine := rand_engine st' |})
  | None => None
  end.

(** The spec's [clamp(x, lo, hi)], as [std::clamp]:
    [(x < lo) ? lo : (hi < x) ? hi : x]. *)
Definition clamp (x lo hi : xreal) : xreal :=
  if xltb x lo then lo else if xltb hi x then hi else x.

(** A finite value within [[lo, hi]]. *)
Definition within (lo hi : R) (x : xreal) : Prop :=
  exists r, x = Num r /\ (lo <= r <= hi)%R.

(** A finite value that is at least [lo]. *)
Definition at_least (lo : R) (x : xreal) : Prop :=
  exists r, x = Num r /\ (lo <= r)%R.


(** [l] and [k] differ in exactly unit [i], which is flipped between 0 and
    1. *)
Definition flipped_at (i : nat) (l k : list xreal) : Prop :=
  length l = length k /\
  (forall j, j <> i -> nth j l NaN = nth j k NaN) /\
  ((nth i l NaN = Num 0 /\ nth i k NaN = Num 1) \/
   (nth i l NaN = Num 1 /\ nth i k NaN = Num 0)).

(** The logistic function of a real number, as computed by hand. *)
Definition hand_sigmoid (z : R) : R := (1 / (1 + exp (- z)))%R.

(** The maximum, the sum and the softmax of a list of reals, which the
    tensor functions compute on finite tensors. *)
Definition rmax (a b : R) : R := if Rlt_dec a b then b else a.
Definition r_maximum (l : list R) : R :=
  match l with
  | [] => 0%R
  | x :: l' => fold_left rmax l' x
  end.
Definition r_sum (l : list R) : R := fold_left Rplus l 0%R.
Definition r_softmax (l : list R) : list R :=
  let m := r_maximum l in
  let e := map (fun x => exp (x + - m)) l in
  let s := r_sum e in
  map (fun y => (y / s)%R) e.

(** ** Concrete models used in the examples *)

Definition zero_statics (nh nv : nat) : statics xreal_etl :=
  {| hidden_t := fun _ _ => repeat (Num 0) nh;
     visible_t := fun _ _ => repeat (Num 0) nv;
     next_s := repeat (Num 0) nh;
     rand_engine := [] |}.

Definition model_of (w : list (list xreal)) (b c : list xreal)
    : rbm xreal_etl :=
  {| w := w; b := b; c := c; v1 := []; h1_a := []; h1_s := [];
     v2_a := []; v2_s := []; h2_a := []; h2_s := [] |}.

(** One visible and one hidden unit. *)
Definition desc_1x1 (vu hu : unit_type) : Desc := mkDesc 1 1 vu hu.

(** Two visible and two hidden units. *)
Definition desc_2x2 (vu hu : unit_type) : Desc := mkDesc 2 2 vu hu.
Definition w_2x2 : list (list xreal) := [[Num 1; Num 2]; [Num 3; Num 4]].

(** The 4-visible/3-hidden BINARY/BINARY model of the round-trip scenario:
    zero biases and a fixed weight matrix, with a visible vector.  The
    pre-activation [W^T v] is [(0.4, -0.5, 2.4)]. *)
Definition desc_4x3 : Desc := mkDesc 4 3 BINARY BINARY.
Definition w_4x3 : list (list xreal) :=
  [[Num (1/10); Num (-2/10); Num (3/10)];
   [Num (4/10); Num (5/10); Num (-6/10)];
   [Num (-7/10); Num (8/10); Num (9/10)];
   [Num 1; Num (-11/10); Num (12/10)]].
Definition b_4x3 : list xreal := [Num 0; Num 0; Num 0].
Definition v_4x3 : list xreal := [Num 1; Num 0; Num 1; Num 1].

(** One visible and one hidden unit, unit weight and zero biases. *)
Definition rbm_unit : rbm xreal_etl := model_of [[Num 1]] [Num 0] [Num 0].

(** One visible unit and two hidden units, whose pre-activations at the
    visible vector [[1]] are 3 and -2. *)
Definition desc_1x2 (vu hu : unit_type) : Desc := mkDesc 1 2 vu hu.
Definition w_1x2 : list (list xreal) := [[Num 3; Num (-2)]].

(** ** More vocabulary *)

(** The unit policy as the spec has it: [activate], the deterministic
    transform of the pre-activation, and [sample], the draw from the
    activation, per tag.  ([clamp(max(z, 0), 0, limit)] is written with the
    tensor library's [min] and [max].) *)
Definition unit_activate {E : Etl} (u : unit_type) (z : tensor) : tensor :=
  match u with
  | BINARY => sigmoid z
  | GAUSSIAN => z
  | RELU => max z lit0
  | RELU1 => min (max z lit0) lit1
  | RELU6 => min (max z lit0) lit6
  | SOFTMAX => softmax z
  end.

Definition unit_sample {E : Etl} (u : unit_type) (a : tensor) (g : rng)
    : tensor * rng :=
  match u with
  | BINARY => bernoulli a g
  | GAUSSIAN => (a, g)
  | RELU => logistic_noise a g
  | RELU1 => ranged_noise a lit1 g
  | RELU6 => ranged_noise a lit6 g
  | SOFTMAX => (one_if_max a, g)
  end.


(** The unit types whose sampling draws from the random engine, for the
    hidden step and for the visible step. *)
Definition hidden_draws (u : unit_type) : bool :=
  (u == BINARY) || (u == RELU) || (u == RELU6) || (u == RELU1).

Definition visible_draws (u : unit_type) : bool :=
  (u == BINARY) || (u == RELU).

(** Statics that differ from [zero_statics 1 1] in every component. *)
Definition used_statics : statics xreal_etl :=
  {| hidden_t := fun _ _ => [Num 4];
     visible_t := fun _ _ => [Num 5];
     next_s := [Num 9];
     rand_engine := [(1/2)%R; (1/3)%R] |}.

(** A tensor of extended reals that holds finite values only. *)
Abbreviation finite := (all_finite (E := xreal_etl)).

(** * Properties *)

(** ** The stability guard *)

Section Guard.

Context {E : Etl}.

Lemma nan_check_deep_all_finite (l : tensor) :
  nan_check_deep l = true <-> all_finite l.
Proof.
  unfold nan_check_deep, all_finite.
  rewrite forallb_forall, Forall_forall. reflexivity.
Qed.

Lemma checked_Some (o o' : outs E) :
  checked o = Some o' <->
  o' = o /\ all_finite (out_a o) /\ all_finite (out_s o).
Proof.
  unfold checked. rewrite <- !nan_check_deep_all_finite.
  destruct (nan_check_deep (out_a o)), (nan_check_deep (out_s o));
    (split; [ intros H; try discriminate H; injection H as <-; auto
            | intros (-> & Ha & Hs); try discriminate; reflexivity ]).
Qed.

Lemma checked_None (o : outs E) :
  checked o = None <-> ~ (all_finite (out_a o) /\ all_finite (out_s o)).
Proof.
  unfold checked. rewrite <- !nan_check_deep_all_finite.
  destruct (nan_check_deep (out_a o)), (nan_check_deep (out_s o));
    (split; [ intros H; try discriminate H; intros [Ha Hs]; discriminate
            | intros H; try reflexivity; exfalso; apply H; auto ]).
Qed.

Lemma checked_finite (o : outs E) :
  all_finite (out_a o) -> all_finite (out_s o) -> checked o = Some o.
Proof. intros Ha Hs. apply checked_Some. auto. Qed.

Lemma checked_cases (o : outs E) :
  checked o
  = if nan_check_deep (out_a o) && nan_check_deep (out_s o)
    then Some o else None.
Proof.
  unfold checked.
  destruct (nan_check_deep (out_a o)), (nan_check_deep (out_s o));
    reflexivity.
Qed.

End Guard.

(** ** The data flow of the two steps, for any tensor library *)

Section DataFlow.

Context {E : Etl}.
Variable d : Desc.
Variables (h_a h_s v_a v_s bias t : tensor) (wt : matrix) (g : rng).

(** The sample-only path and the combined path of the hidden step write
    the same sample, the same scratch and leave the random engine in the
    same state. *)
Lemma sample_only_writes :
  let o1 := activate_hidden_writes d false true h_a h_s v_a v_s bias wt t g in
  let o2 := activate_hidden_writes d true true h_a h_s v_a v_s bias wt t g in
  out_s o1 = out_s o2 /\ out_t o1 = out_t o2 /\ out_g o1 = out_g o2.
Proof.
  unfold activate_hidden_writes. destruct (hidden_unit d); cbn; auto.
Qed.

(** Computing the sample as well leaves the activation as it is. *)
Lemma sample_keeps_activation (S : bool) (t' : tensor) :
  out_a (activate_hidden_writes d true S h_a h_s v_a v_s bias wt t g)
  = out_a (activate_hidden_writes d true false h_a h_s v_a v_s bias wt t' g).
Proof.
  unfold activate_hidden_writes.
  destruct S, (hidden_unit d); reflexivity.
Qed.

(** A hidden step whose unit type matches no branch writes nothing. *)
Lemma hidden_no_branch_writes (P S : bool) :
  hidden_branch (hidden_unit d) = false ->
  activate_hidden_writes d P S h_a h_s v_a v_s bias wt t g
  = {| out_a := h_a; out_s := h_s; out_t := t; out_g := g |}.
Proof.
  unfold activate_hidden_writes.
  destruct P, S, (hidden_unit d); intros H; try discriminate H; reflexivity.
Qed.

(** A visible step whose unit type matches no branch writes nothing. *)
Lemma visible_no_branch_writes (P S : bool) :
  visible_branch (visible_unit d) = false ->
  activate_visible_writes d P S h_a h_s v_a v_s bias wt t g
  = {| out_a := v_a; out_s := v_s; out_t := t; out_g := g |}.
Proof.
  unfold activate_visible_writes.
  destruct P, S, (visible_unit d); intros H; try discriminate H; reflexivity.
Qed.

End DataFlow.

(** ** Evaluating the extended reals *)

Lemma xltb_Num (a b : R) : xltb (Num a) (Num b) = true <-> (a < b)%R.
Proof.
  cbn. destruct (Rlt_dec a b); split; intros; auto; try discriminate; tauto.
Qed.


Lemma xdiv_Num (a b : R) : b <> 0%R -> xdiv (Num a) (Num b) = Num (a / b).
Proof.
  intros Hb. cbn. destruct (Req_dec_T b 0); [contradiction | reflexivity].
Qed.

Lemma logistic_sigmoid_Num (r : R) :
  logistic_sigmoid (Num r) = Num (1 / (1 + exp (- r))).
Proof.
  unfold logistic_sigmoid. cbn [xneg xexp xadd]. apply xdiv_Num.
  pose proof (exp_pos (- r)). lra.
Qed.

(** Settles the comparisons of real numerals a run meets. *)
Ltac decide_reals :=
  repeat match goal with
         | |- context [Rlt_dec ?a ?b] => destruct (Rlt_dec a b); try lra
         | |- context [Req_dec_T ?a ?b] => destruct (Req_dec_T a b); try lra
         end.

(** Runs the engine on concrete tensors, down to real arithmetic. *)
Ltac run_engine :=
  cbv -[Rplus Rmult Rminus Ropp Rdiv Rinv exp Rlt_dec Req_dec_T IZR
        set_scratch logistic_sigmoid];
  rewrite ?logistic_sigmoid_Num;
  decide_reals.

(** Closes an equation between two runs that differ in how their real
    numbers are written. *)
Ltac same_reals :=
  repeat first
    [ reflexivity
    | match goal with |- Num _ = Num _ => apply f_equal; lra end
    | progress f_equal ].

(** ** Concrete runs *)

(** The facade on the one-unit RELU1 model: the activation is returned and
    the static sample buffer, zero before the call, holds the sample. *)
Example facade_relu1_run :
  activation_probabilities_into (desc_1x1 BINARY RELU1) rbm_unit
    [Num 1] [Num 0] (zero_statics 1 1)
  = Some ([Num 1],
          {| hidden_t := set_scratch (fun _ _ => [Num 0]) true true [Num 1];
             visible_t := fun _ _ => [Num 0];
             next_s := [Num 1];
             rand_engine := [] |}).
Proof. run_engine. same_reals. Qed.

(** The same call with the sample switched off leaves the buffer alone. *)
Example facade_prob_only_relu1_run :
  activation_probabilities_prob_only (desc_1x1 BINARY RELU1) rbm_unit
    [Num 1] [Num 0] (zero_statics 1 1)
  = Some ([Num 1],
          {| hidden_t := set_scratch (fun _ _ => [Num 0]) true false [Num 1];
             visible_t := fun _ _ => [Num 0];
             next_s := [Num 0];
             rand_engine := [] |}).
Proof. run_engine. same_reals. Qed.

(** A RELU6 hidden step, sample only and combined, on the tape [[1/2]]. *)
Example relu6_sample_only_run :
  activate_hidden (desc_1x1 BINARY RELU6) false true
    [Num 0] [Num 0] [Num 3] [Num 3] [Num 0] [[Num 1]] [Num 0] [(1/2)%R]
  = Some {| out_a := [Num 0]; out_s := [Num (7/2)];
            out_t := [Num 3]; out_g := [] |}.
Proof. run_engine. same_reals. Qed.

Example relu6_combined_run :
  activate_hidden (desc_1x1 BINARY RELU6) true true
    [Num 0] [Num 0] [Num 3] [Num 3] [Num 0] [[Num 1]] [Num 0] [(1/2)%R]
  = Some {| out_a := [Num 3]; out_s := [Num (7/2)];
            out_t := [Num 3]; out_g := [] |}.
Proof. run_engine. same_reals. Qed.

(** A GAUSSIAN visible step on the 2x2 model, from the sample [[1; 1]] and
    from the sample [[1; 0]]. *)
Example gaussian_visible_run_11 (h_a : list xreal) :
  activate_visible (desc_2x2 GAUSSIAN BINARY) true true
    h_a [Num 1; Num 1] [Num 0; Num 0] [Num 0; Num 0] [Num 0; Num 0]
    w_2x2 [Num 0; Num 0] []
  = Some {| out_a := [Num 3; Num 7]; out_s := [Num 3; Num 7];
            out_t := [Num 3; Num 7]; out_g := [] |}.
Proof. run_engine. same_reals. Qed.

Example gaussian_visible_run_10 (h_a : list xreal) :
  activate_visible (desc_2x2 GAUSSIAN BINARY) true true
    h_a [Num 1; Num 0] [Num 0; Num 0] [Num 0; Num 0] [Num 0; Num 0]
    w_2x2 [Num 0; Num 0] []
  = Some {| out_a := [Num 1; Num 3]; out_s := [Num 1; Num 3];
            out_t := [Num 1; Num 3]; out_g := [] |}.
Proof. run_engine. same_reals. Qed.

(** The stability-guard scenario: an infinite weight makes the
    pre-activation and the RELU activation infinite, and the step fails its
    assertion instead of handing the infinity on. *)
Example guard_catches_infinity :
  activate_hidden (desc_1x1 BINARY RELU) true true
    [Num 0] [Num 0] [Num 1] [Num 1] [Num 0] [[PInf]] [Num 0] []
  = None.
Proof. run_engine. reflexivity. Qed.

(** ** The inference facade *)

(** C1, as the spec words it, fails: on the one-unit RELU1 model the facade
    does not behave as the hidden step with [computeSample = false] would.
    It computes the hidden sample into its static buffer, which holds 1
    after the call and would still hold 0 otherwise. *)
Lemma activation_probabilities_computes_sample :
  activation_probabilities_into (desc_1x1 BINARY RELU1) rbm_unit
    [Num 1] [Num 0] (zero_statics 1 1)
  <> activation_probabilities_prob_only (desc_1x1 BINARY RELU1) rbm_unit
       [Num 1] [Num 0] (zero_statics 1 1).
Proof.
  rewrite facade_relu1_run, facade_prob_only_relu1_run. intros H.
  apply (f_equal (option_map (fun p => next_s (snd p)))) in H.
  cbn in H. injection H as H. lra.
Qed.

(** C1, amended: [activation_probabilities] invokes the hidden step with its
    default flags, [computeProb = true] and [computeSample = true], on the
    input taken as the visible activation (and as the visible sample).  It
    returns the activation of that step, which is the activation the step
    computes with [computeSample = false]; the sample is computed too, into
    the static buffer [next_s], and is not returned. *)
Theorem activation_probabilities_default_flags (E : Etl) (d : Desc)
    (r : rbm E) (item result : tensor) (st : statics E) :
  let step :=
    activate_hidden d true true result (next_s st) item item (b r) (w r)
      (hidden_t st true true) (rand_engine st) in
  option_map fst (activation_probabilities_into d r item result st)
  = option_map (@out_a E) step
  /\ option_map (fun p => next_s (snd p))
       (activation_probabilities_into d r item result st)
     = option_map (@out_s E) step
  /\ option_map fst (activation_probabilities d r item st)
     = option_map (@out_a E)
         (activate_hidden d true true (repeat lit0 (num_hidden d))
            (next_s st) item item (b r) (w r)
            (hidden_t st true true) (rand_engine st))
  /\ (forall o, step = Some o ->
        out_a o
        = out_a (activate_hidden_writes d true false result (next_s st)
                   item item (b r) (w r) (hidden_t st true false)
                   (rand_engine st))).
Proof.
  cbv zeta.
  unfold activation_probabilities, activation_probabilities_into,
    activate_hidden_rbm, activate_hidden_static, output_size.
  repeat split.
  - destruct (activate_hidden d true true result _ _ _ _ _ _ _); reflexivity.
  - destruct (activate_hidden d true true result _ _ _ _ _ _ _); reflexivity.
  - destruct (activate_hidden d true true (repeat _ _) _ _ _ _ _ _ _);
      reflexivity.
  - intros o Ho. apply checked_Some in Ho. destruct Ho as (-> & _).
    apply sample_keeps_activation.
Qed.

(** The amended C1 at the one-unit RELU1 model. *)
Lemma activation_probabilities_default_flags_witness :
  exists o,
    activate_hidden (desc_1x1 BINARY RELU1) true true [Num 0] [Num 0]
      [Num 1] [Num 1] [Num 0] [[Num 1]] [Num 0] [] = Some o
    /\ out_a o
       = out_a (activate_hidden_writes (desc_1x1 BINARY RELU1) true false
                  [Num 0] [Num 0] [Num 1] [Num 1] [Num 0] [[Num 1]]
                  [Num 0] []).
Proof.
  eexists. split.
  - run_engine. reflexivity.
  - apply (proj2 (proj2 (proj2
      (activation_probabilities_default_flags (desc_1x1 BINARY RELU1)
         rbm_unit [Num 1] [Num 0] (zero_statics 1 1))))).
    run_engine. reflexivity.
Defined.

(** ** Which arguments the steps read *)

(** C10: the outputs of [activate_hidden] do not depend on the visible
    sample argument: two calls that differ in it only give the same result,
    through the static overload and through the member overload alike. *)
Theorem activate_hidden_ignores_visible_sample (E : Etl) (d : Desc)
    (P S : bool) (r : rbm E) (st : statics E)
    (h_a h_s v_a v_s v_s' bias t : tensor) (wt : matrix) (g : rng) :
  activate_hidden d P S h_a h_s v_a v_s bias wt t g
  = activate_hidden d P S h_a h_s v_a v_s' bias wt t g
  /\ activate_hidden_rbm d P S r h_a h_s v_a v_s st
     = activate_hidden_rbm d P S r h_a h_s v_a v_s' st.
Proof. split; reflexivity. Qed.

(** C2: [activate_visible] reconstructs from the hidden sample only: two
    calls that differ in the hidden activation only give the same visible
    activation and sample, whereas flipping one unit of the hidden sample
    can change the reconstruction: on the 2x2 GAUSSIAN model, the call with
    activation [[1; 0]] and sample [[1; 1]] reconstructs another vector than
    the call that is given the activation in place of the sample. *)
Theorem activate_visible_reads_sample_only :
  (forall (E : Etl) (d : Desc) (P S : bool)
          (h_a h_a' h_s v_a v_s bias t : tensor) (wt : matrix) (g : rng),
      activate_visible d P S h_a h_s v_a v_s bias wt t g
      = activate_visible d P S h_a' h_s v_a v_s bias wt t g)
  /\ (exists (h_a h_s : list xreal) (o1 o2 : outs xreal_etl),
        flipped_at 1 h_a h_s
        /\ activate_visible (desc_2x2 GAUSSIAN BINARY) true true h_a h_s
             [Num 0; Num 0] [Num 0; Num 0] [Num 0; Num 0] w_2x2
             [Num 0; Num 0] [] = Some o1
        /\ activate_visible (desc_2x2 GAUSSIAN BINARY) true true h_a h_a
             [Num 0; Num 0] [Num 0; Num 0] [Num 0; Num 0] w_2x2
             [Num 0; Num 0] [] = Some o2
        /\ out_a o1 <> out_a o2 /\ out_s o1 <> out_s o2).
Proof.
  split; [reflexivity |].
  exists [Num 1; Num 0], [Num 1; Num 1].
  do 2 eexists. split; [| split; [| split]].
  - split; [reflexivity | split].
    + intros [| [| [| j]]] Hj; try reflexivity. contradiction.
    + left. split; reflexivity.
  - apply gaussian_visible_run_11.
  - apply gaussian_visible_run_10.
  - cbn. split; intros H; injection H as H1 H2; lra.
Qed.

(** ** The two paths to the hidden sample *)

(** C4: for every hidden unit policy that has a branch, the sample-only
    path of [activate_hidden] and its combined path produce the same hidden
    sample from the same inputs and the same state of the random engine:
    both compute [h_s = sample(activate(z))] for the pre-activation
    [z = b + v_a W], the combined path from the activation [h_a =
    activate(z)] it has just stored, the sample-only path without touching
    [h_a].  They leave the random engine and the scratch in the same state.
    (Without a branch both leave the sample buffer as it was.) *)
Theorem sample_only_path_agrees (E : Etl) (d : Desc)
    (h_a h_s v_a v_s bias t : tensor) (wt : matrix) (g : rng)
    (o1 o2 : outs E) :
  activate_hidden d false true h_a h_s v_a v_s bias wt t g = Some o1 ->
  activate_hidden d true true h_a h_s v_a v_s bias wt t g = Some o2 ->
  let u := hidden_unit d in
  let z := (bias + vmmul v_a wt)%etl in
  (out_s o1 = out_s o2 /\ out_g o1 = out_g o2 /\ out_t o1 = out_t o2)
  /\ (hidden_branch u = true ->
      out_s o1 = fst (unit_sample u (unit_activate u z) g)
      /\ out_g o1 = snd (unit_sample u (unit_activate u z) g)
      /\ out_a o1 = h_a
      /\ out_a o2 = unit_activate u z
      /\ out_s o2 = fst (unit_sample u (out_a o2) g)
      /\ out_t o1 = vmmul v_a wt)
  /\ (hidden_branch u = false ->
      out_s o1 = h_s /\ out_s o2 = h_s /\ out_a o2 = h_a).
Proof.
  intros H1 H2 u z.
  apply checked_Some in H1. destruct H1 as (-> & _).
  apply checked_Some in H2. destruct H2 as (-> & _).
  subst u z. unfold activate_hidden_writes.
  destruct (hidden_unit d); cbn;
    (split; [auto | split]); intros Hb; try discriminate Hb;
    repeat split; reflexivity.
Qed.

(** C4 at a RELU6 unit whose pre-activation is 3, with the draw 1/2. *)
Lemma sample_only_path_agrees_witness :
  exists o1 o2 : outs xreal_etl,
    activate_hidden (desc_1x1 BINARY RELU6) false true
      [Num 0] [Num 0] [Num 3] [Num 3] [Num 0] [[Num 1]] [Num 0] [(1/2)%R]
    = Some o1
    /\ activate_hidden (desc_1x1 BINARY RELU6) true true
         [Num 0] [Num 0] [Num 3] [Num 3] [Num 0] [[Num 1]] [Num 0] [(1/2)%R]
       = Some o2
    /\ out_s o1 = out_s o2
    /\ out_s o1
       = fst (unit_sample RELU6
                (unit_activate RELU6 (x_plus [Num 0] (x_vmmul [Num 3] [[Num 1]])))
                [(1/2)%R]).
Proof.
  do 2 eexists.
  split; [apply relu6_sample_only_run |].
  split; [apply relu6_combined_run |].
  destruct (@sample_only_path_agrees _ _ _ _ _ _ _ _ _ _ _ _
              relu6_sample_only_run relu6_combined_run)
    as ((Hs & _) & Hb & _).
  split; [exact Hs | exact (proj1 (Hb eq_refl))].
Defined.

(** ** The stability guard as a post-condition *)

(** C5: when [activate_hidden] or [activate_visible] returns normally, its
    activation tensor and its sample tensor hold finite values only; and
    when what a step has written holds a NaN or an infinity, the step fails
    its assertion instead of returning. *)
Theorem steps_return_finite_tensors (E : Etl) (d : Desc) (P S : bool)
    (x_a x_s y_a y_s bias t : tensor) (wt : matrix) (g : rng) :
  (forall o, activate_hidden d P S x_a x_s y_a y_s bias wt t g = Some o ->
     all_finite (out_a o) /\ all_finite (out_s o))
  /\ (forall o, activate_visible d P S x_a x_s y_a y_s bias wt t g = Some o ->
        all_finite (out_a o) /\ all_finite (out_s o))
  /\ (let o := activate_hidden_writes d P S x_a x_s y_a y_s bias wt t g in
      ~ (all_finite (out_a o) /\ all_finite (out_s o)) ->
      activate_hidden d P S x_a x_s y_a y_s bias wt t g = None)
  /\ (let o := activate_visible_writes d P S x_a x_s y_a y_s bias wt t g in
      ~ (all_finite (out_a o) /\ all_finite (out_s o)) ->
      activate_visible d P S x_a x_s y_a y_s bias wt t g = None).
Proof.
  unfold activate_hidden, activate_visible.
  split; [| split; [| split]].
  - intros o H. apply checked_Some in H. destruct H as (-> & Ha & Hs). auto.
  - intros o H. apply checked_Some in H. destruct H as (-> & Ha & Hs). auto.
  - cbv zeta. intros Ho. apply checked_None. exact Ho.
  - cbv zeta. intros Ho. apply checked_None. exact Ho.
Qed.

(** C5 at the RELU6 step that returns the activation 3 and the sample
    7/2. *)
Lemma steps_return_finite_tensors_witness :
  exists o : outs xreal_etl,
    activate_hidden (desc_1x1 BINARY RELU6) true true
      [Num 0] [Num 0] [Num 3] [Num 3] [Num 0] [[Num 1]] [Num 0] [(1/2)%R]
    = Some o
    /\ all_finite (out_a o) /\ all_finite (out_s o).
Proof.
  eexists. split; [apply relu6_combined_run |].
  exact (proj1 (steps_return_finite_tensors (desc_1x1 BINARY RELU6) true true
                  [Num 0] [Num 0] [Num 3] [Num 3] [Num 0] [Num 0] [[Num 1]]
                  [(1/2)%R]) _ relu6_combined_run).
Defined.

(** ** GAUSSIAN visible units *)

(** C8: for a GAUSSIAN visible unit, [activate_visible] sets the visible
    activation to the pre-activation [c + W h_s] itself (when asked for the
    activation), and the visible sample to that same value, with no noise
    (when asked for the sample): computed together, the sample equals the
    activation. *)
Theorem gaussian_visible_is_identity (E : Etl) (nv nh : nat) (hu : unit_type)
    (P S : bool) (h_a h_s v_a v_s bias t : tensor) (wt : matrix) (g : rng)
    (o : outs E) :
  activate_visible (mkDesc nv nh GAUSSIAN hu) P S
    h_a h_s v_a v_s bias wt t g = Some o ->
  out_a o = (if P then (bias + mvmul wt h_s)%etl else v_a)
  /\ out_s o = (if S then (bias + mvmul wt h_s)%etl else v_s)
  /\ (P && S = true -> out_s o = out_a o).
Proof.
  intros H. apply checked_Some in H. destruct H as (-> & _).
  destruct P, S; repeat split; try reflexivity; discriminate.
Qed.

(** C8 on the 2x2 model with the hidden sample [[1; 1]]. *)
Lemma gaussian_visible_is_identity_witness :
  exists o : outs xreal_etl,
    activate_visible (desc_2x2 GAUSSIAN BINARY) true true
      [Num 1; Num 0] [Num 1; Num 1] [Num 0; Num 0] [Num 0; Num 0]
      [Num 0; Num 0] w_2x2 [Num 0; Num 0] [] = Some o
    /\ out_a o = x_plus [Num 0; Num 0] (x_mvmul w_2x2 [Num 1; Num 1])
    /\ out_s o = out_a o.
Proof.
  eexists. split; [apply gaussian_visible_run_11 |].
  pose proof (gaussian_visible_is_identity (E := xreal_etl) 2 2 BINARY
                true true _ _ _ _ _ _ _ _
                (gaussian_visible_run_11 [Num 1; Num 0]))
    as (Ha & _ & Hs).
  split; [exact Ha | exact (Hs eq_refl)].
Defined.

(** ** Unit types that match no branch *)

(** C9, as stated, fails: a GAUSSIAN hidden unit matches no branch of the
    hidden step, yet the step is not silent when the activation buffer it
    was handed holds a NaN: it writes nothing, then checks the buffer and
    fails its assertion. *)
Lemma no_branch_step_can_fail :
  hidden_branch GAUSSIAN = false
  /\ activate_hidden (desc_1x1 BINARY GAUSSIAN) true true
       [NaN] [Num 0] [Num 0] [Num 0] [Num 0] [[Num 0]] [Num 0] []
     = None.
Proof. split; reflexivity. Qed.

(** C9, amended: when the unit type of the layer matches no branch of its
    step, the step writes neither output tensor (nor the scratch, and it
    draws nothing): it returns the buffers with their prior contents, and
    raises nothing for the unmatched tag; it still checks both buffers, so
    that it returns exactly when their prior contents are finite. *)
Theorem no_branch_step_writes_nothing (E : Etl) (d : Desc) (P S : bool)
    (x_a x_s y_a y_s bias t : tensor) (wt : matrix) (g : rng) :
  (hidden_branch (hidden_unit d) = false ->
   activate_hidden d P S x_a x_s y_a y_s bias wt t g
   = if nan_check_deep x_a && nan_check_deep x_s
     then Some {| out_a := x_a; out_s := x_s; out_t := t; out_g := g |}
     else None)
  /\ (visible_branch (visible_unit d) = false ->
      activate_visible d P S x_a x_s y_a y_s bias wt t g
      = if nan_check_deep y_a && nan_check_deep y_s
        then Some {| out_a := y_a; out_s := y_s; out_t := t; out_g := g |}
        else None).
Proof.
  unfold activate_hidden, activate_visible. split; intros H.
  - rewrite hidden_no_branch_writes by exact H. apply checked_cases.
  - rewrite visible_no_branch_writes by exact H. apply checked_cases.
Qed.

(** The amended C9 at a GAUSSIAN hidden layer and at a SOFTMAX visible
    layer, on finite buffers. *)
Lemma no_branch_step_writes_nothing_witness :
  activate_hidden (desc_1x1 SOFTMAX GAUSSIAN) true true
    [Num 5] [Num 7] [Num 1] [Num 1] [Num 0] [[Num 1]] [Num 0] []
  = Some {| out_a := [Num 5]; out_s := [Num 7]; out_t := [Num 0];
            out_g := [] |}
  /\ activate_visible (desc_1x1 SOFTMAX GAUSSIAN) true true
       [Num 1] [Num 1] [Num 5] [Num 7] [Num 0] [[Num 1]] [Num 0] []
     = Some {| out_a := [Num 5]; out_s := [Num 7]; out_t := [Num 0];
               out_g := [] |}.
Proof.
  split.
  - exact (proj1 (no_branch_step_writes_nothing (E := xreal_etl)
                    (desc_1x1 SOFTMAX GAUSSIAN) true true
                    [Num 5] [Num 7] [Num 1] [Num 1] [Num 0] [Num 0]
                    [[Num 1]] []) eq_refl).
  - exact (proj2 (no_branch_step_writes_nothing (E := xreal_etl)
                    (desc_1x1 SOFTMAX GAUSSIAN) true true
                    [Num 1] [Num 1] [Num 5] [Num 7] [Num 0] [Num 0]
                    [[Num 1]] []) eq_refl).
Defined.

(** ** BINARY hidden units *)

Lemma hand_sigmoid_close (x y : R) :
  x = y -> (Rabs (1 / (1 + exp (- x)) - hand_sigmoid y) <= 1 / 1000000)%R.
Proof.
  intros ->. unfold hand_sigmoid.
  rewrite Rminus_diag, Rabs_R0. lra.
Qed.

(** The activation of the 4x3 model at its visible vector. *)
Example binary_4x3_run :
  activate_hidden desc_4x3 true false
    [Num 0; Num 0; Num 0] [Num 0; Num 0; Num 0] v_4x3 v_4x3 b_4x3 w_4x3
    [Num 0; Num 0; Num 0] []
  = Some {| out_a := x_sigmoid (x_plus b_4x3 (x_vmmul v_4x3 w_4x3));
            out_s := [Num 0; Num 0; Num 0];
            out_t := x_vmmul v_4x3 w_4x3;
            out_g := [] |}.
Proof. run_engine. reflexivity. Qed.

(** C3: for a BINARY hidden unit, [activate_hidden] with [computeProb] sets
    the hidden activation to the logistic sigmoid of the pre-activation,
    [h_a = sigmoid(b + v_a W)]; on the 4-visible/3-hidden BINARY/BINARY
    model with zero biases, the hidden activation of the visible vector is
    within 1e-6 of the sigmoid of [W^T v = (0.4, -0.5, 2.4)] computed by
    hand. *)
Theorem binary_hidden_activation_is_sigmoid :
  (forall (E : Etl) (nv nh : nat) (vu : unit_type) (S : bool)
          (h_a h_s v_a v_s bias t : tensor) (wt : matrix) (g : rng)
          (o : outs E),
      activate_hidden (mkDesc nv nh vu BINARY) true S
        h_a h_s v_a v_s bias wt t g = Some o ->
      out_a o = sigmoid (bias + vmmul v_a wt)%etl)
  /\ (exists (o : outs xreal_etl) (r0 r1 r2 : R),
        activate_hidden desc_4x3 true false
          [Num 0; Num 0; Num 0] [Num 0; Num 0; Num 0] v_4x3 v_4x3
          b_4x3 w_4x3 [Num 0; Num 0; Num 0] [] = Some o
        /\ out_a o = [Num r0; Num r1; Num r2]
        /\ (Rabs (r0 - hand_sigmoid (4/10)) <= 1 / 1000000)%R
        /\ (Rabs (r1 - hand_sigmoid (-5/10)) <= 1 / 1000000)%R
        /\ (Rabs (r2 - hand_sigmoid (24/10)) <= 1 / 1000000)%R).
Proof.
  split.
  - intros E nv nh vu S h_a h_s v_a v_s bias t wt g o H.
    apply checked_Some in H. destruct H as (-> & _).
    destruct S; reflexivity.
  - eexists. do 3 eexists.
    split; [apply binary_4x3_run |].
    split.
    + cbv -[Rplus Rmult Rminus Ropp Rdiv Rinv exp Rlt_dec Req_dec_T IZR
            logistic_sigmoid].
      rewrite !logistic_sigmoid_Num. reflexivity.
    + repeat split; apply hand_sigmoid_close; lra.
Qed.

(** ** Rectified-linear hidden units *)

Lemma relu_not_negative (x : xreal) : xltb (std_max x (Num 0)) (Num 0) = false.
Proof.
  destruct x; unfold std_max; cbn; decide_reals; cbn; decide_reals;
    reflexivity.
Qed.

Lemma clamp_relu (x hi : xreal) :
  clamp (std_max x (Num 0)) (Num 0) hi = std_min (std_max x (Num 0)) hi.
Proof. unfold clamp. rewrite relu_not_negative. reflexivity. Qed.

Lemma relu_finite_at_least (x : xreal) :
  xisfinite (std_max x (Num 0)) = true -> at_least 0 (std_max x (Num 0)).
Proof.
  unfold at_least, std_max.
  destruct x; cbn; decide_reals; intros H; try discriminate H;
    eexists; (split; [reflexivity | lra]).
Qed.

Lemma relu_limit_finite_within (x : xreal) (limit : R) :
  (0 <= limit)%R ->
  xisfinite (std_min (std_max x (Num 0)) (Num limit)) = true ->
  within 0 limit (std_min (std_max x (Num 0)) (Num limit)).
Proof.
  intros Hl. unfold within, std_min, std_max.
  destruct x; cbn; decide_reals; cbn; decide_reals; intros H;
    try discriminate H; eexists; (split; [reflexivity | lra]).
Qed.

Lemma Forall_map_finite (P : xreal -> Prop) (f : xreal -> xreal)
    (l : list xreal) :
  (forall x, xisfinite (f x) = true -> P (f x)) ->
  all_finite (E := xreal_etl) (map f l) -> Forall P (map f l).
Proof.
  intros Hf. unfold all_finite. rewrite !Forall_map.
  apply Forall_impl. exact Hf.
Qed.

(** C7: when [activate_hidden] returns, the RELU hidden activation is
    [max(z, 0)] and every element of it is at least 0; the RELU1 and RELU6
    activations are [clamp(max(z, 0), 0, limit)] with limit 1 and 6, and
    every element lies within [[0, 1]] and [[0, 6]]; [z] is the
    pre-activation [b + v_a W]. *)
Theorem relu_hidden_activation_bounds (nv nh : nat) (vu hu : unit_type)
    (S : bool) (h_a h_s v_a v_s bias t : list xreal)
    (wt : list (list xreal)) (g : tape) (o : outs xreal_etl) :
  activate_hidden (mkDesc nv nh vu hu) true S h_a h_s v_a v_s bias wt t g
  = Some o ->
  let z := x_plus bias (x_vmmul v_a wt) in
  match hu with
  | RELU =>
      out_a o = map (fun x => std_max x (Num 0)) z
      /\ Forall (at_least 0) (out_a o)
  | RELU1 =>
      out_a o = map (fun x => clamp (std_max x (Num 0)) (Num 0) (Num 1)) z
      /\ Forall (within 0 1) (out_a o)
  | RELU6 =>
      out_a o = map (fun x => clamp (std_max x (Num 0)) (Num 0) (Num 6)) z
      /\ Forall (within 0 6) (out_a o)
  | _ => True
  end.
Proof.
  intros H z. apply checked_Some in H. destruct H as (-> & Ha & _).
  destruct hu; try exact I.
  - assert (Hw : out_a (activate_hidden_writes (mkDesc nv nh vu RELU) true S
                          h_a h_s v_a v_s bias wt t g)
                 = map (fun x => std_max x (Num 0)) z)
      by (destruct S; reflexivity).
    rewrite Hw in *. split; [reflexivity |].
    apply Forall_map_finite; [apply relu_finite_at_least | exact Ha].
  - assert (Hw : out_a (activate_hidden_writes (mkDesc nv nh vu RELU1) true S
                          h_a h_s v_a v_s bias wt t g)
                 = map (fun x => std_min (std_max x (Num 0)) (Num 1)) z)
      by (destruct S; cbn; unfold x_min, x_max; rewrite map_map; reflexivity).
    rewrite Hw in *. split.
    + apply map_ext. intros x. symmetry. apply clamp_relu.
    + apply Forall_map_finite; [| exact Ha].
      intros x. apply relu_limit_finite_within. lra.
  - assert (Hw : out_a (activate_hidden_writes (mkDesc nv nh vu RELU6) true S
                          h_a h_s v_a v_s bias wt t g)
                 = map (fun x => std_min (std_max x (Num 0)) (Num 6)) z)
      by (destruct S; cbn; unfold x_min, x_max; rewrite map_map; reflexivity).
    rewrite Hw in *. split.
    + apply map_ext. intros x. symmetry. apply clamp_relu.
    + apply Forall_map_finite; [| exact Ha].
      intros x. apply relu_limit_finite_within. lra.
Qed.

(** A RELU1 step on the 1x2 model: the pre-activations 3 and -2 are
    clamped to 1 and 0. *)
Example relu1_run :
  activate_hidden (desc_1x2 BINARY RELU1) true true
    [Num 0; Num 0] [Num 0; Num 0] [Num 1] [Num 1] [Num 0; Num 0] w_1x2
    [Num 0; Num 0] []
  = Some {| out_a := [Num 1; Num 0]; out_s := [Num 1; Num 0];
            out_t := [Num 3; Num (-2)]; out_g := [] |}.
Proof. run_engine. same_reals. Qed.

(** C7 at that step. *)
Lemma relu_hidden_activation_bounds_witness :
  exists o : outs xreal_etl,
    activate_hidden (desc_1x2 BINARY RELU1) true true
      [Num 0; Num 0] [Num 0; Num 0] [Num 1] [Num 1] [Num 0; Num 0] w_1x2
      [Num 0; Num 0] [] = Some o
    /\ out_a o
       = map (fun x => clamp (std_max x (Num 0)) (Num 0) (Num 1))
           (x_plus [Num 0; Num 0] (x_vmmul [Num 1] w_1x2))
    /\ Forall (within 0 1) (out_a o).
Proof.
  eexists. split; [apply relu1_run |].
  exact (relu_hidden_activation_bounds 1 2 BINARY RELU1 true
           _ _ _ _ _ _ _ _ relu1_run).
Defined.

(** ** SOFTMAX hidden units *)

(** *** Finite tensors are lists of reals *)





(** *** Sums, maxima and the softmax of finite tensors *)

Lemma fold_xadd_Num (rs : list R) (a : R) :
  fold_left xadd (map Num rs) (Num a) = Num (fold_left Rplus rs a).
Proof.
  revert a. induction rs as [| r rs IH]; intros a; [reflexivity |].
  cbn. apply IH.
Qed.

Lemma x_sum_Num (rs : list R) : x_sum (map Num rs) = Num (r_sum rs).
Proof. apply fold_xadd_Num. Qed.

Lemma std_max_Num (a b : R) : std_max (Num a) (Num b) = Num (rmax a b).
Proof. unfold std_max, rmax. cbn. destruct (Rlt_dec a b); reflexivity. Qed.

Lemma fold_std_max_Num (rs : list R) (a : R) :
  fold_left std_max (map Num rs) (Num a) = Num (fold_left rmax rs a).
Proof.
  revert a. induction rs as [| r rs IH]; intros a; [reflexivity |].
  cbn [map fold_left]. rewrite std_max_Num. apply IH.
Qed.

Lemma x_maximum_Num (rs : list R) :
  x_maximum (map Num rs) = Num (r_maximum rs).
Proof. destruct rs; [reflexivity | apply fold_std_max_Num]. Qed.

Lemma fold_Rplus_acc (rs : list R) (a : R) :
  fold_left Rplus rs a = (a + r_sum rs)%R.
Proof.
  unfold r_sum. revert a. induction rs as [| r rs IH]; intros a; cbn.
  - lra.
  - rewrite (IH (a + r)%R), (IH (0 + r)%R). lra.
Qed.

Lemma r_sum_cons (r : R) (rs : list R) : r_sum (r :: rs) = (r + r_sum rs)%R.
Proof. unfold r_sum at 1. cbn. rewrite fold_Rplus_acc. lra. Qed.

Lemma r_sum_positive (rs : list R) :
  rs <> [] -> Forall (fun r => 0 < r)%R rs -> (0 < r_sum rs)%R.
Proof.
  intros Hne H. induction H as [| r rs Hr H IH]; [contradiction |].
  rewrite r_sum_cons. destruct rs as [| r' rs'].
  - unfold r_sum. cbn. lra.
  - assert (0 < r_sum (r' :: rs'))%R by (apply IH; discriminate). lra.
Qed.

Lemma r_sum_scale (s : R) (rs : list R) :
  r_sum (map (fun y => y / s)%R rs) = (r_sum rs / s)%R.
Proof.
  induction rs as [| r rs IH].
  - unfold r_sum. cbn. lra.
  - cbn [map]. rewrite !r_sum_cons, IH. lra.
Qed.

Lemma exps_positive (m : R) (rs : list R) :
  Forall (fun r => 0 < r)%R (map (fun x => exp (x + - m)) rs).
Proof. rewrite Forall_map. apply Forall_forall. intros; apply exp_pos. Qed.

Lemma r_softmax_denominator (rs : list R) :
  rs <> [] ->
  (0 < r_sum (map (fun x => exp (x + - r_maximum rs)) rs))%R.
Proof.
  intros Hne. apply r_sum_positive; [| apply exps_positive].
  destruct rs; [contradiction | discriminate].
Qed.

Lemma r_softmax_sum (rs : list R) : rs <> [] -> r_sum (r_softmax rs) = 1%R.
Proof.
  intros Hne. unfold r_softmax. rewrite r_sum_scale.
  pose proof (r_softmax_denominator Hne). field. lra.
Qed.

(** Subtracting the maximum changes nothing in exact arithmetic: the
    softmax is the exponential over the sum of the exponentials. *)
Lemma r_softmax_unshifted (rs : list R) :
  rs <> [] ->
  r_softmax rs = map (fun x => exp x / r_sum (map exp rs))%R rs.
Proof.
  intros Hne. unfold r_softmax. set (m := r_maximum rs).
  assert (Hshift : map (fun x => exp (x + - m)) rs
                   = map (fun y => y / exp m)%R (map exp rs)).
  { rewrite map_map. apply map_ext. intros x.
    rewrite exp_plus, exp_Ropp. reflexivity. }
  assert (Hpos : (0 < r_sum (map exp rs))%R).
  { apply r_sum_positive.
    - destruct rs; [contradiction | discriminate].
    - rewrite Forall_map. apply Forall_forall. intros; apply exp_pos. }
  rewrite Hshift, r_sum_scale, !map_map.
  apply map_ext. intros x. pose proof (exp_pos m). field. lra.
Qed.

Lemma exps_Num (m : R) (rs : list R) :
  map (fun x => xexp (xadd x (xneg (Num m)))) (map Num rs)
  = map Num (map (fun x => exp (x + - m)) rs).
Proof. rewrite !map_map. reflexivity. Qed.

Lemma x_softmax_Num (rs : list R) :
  rs <> [] -> x_softmax (map Num rs) = map Num (r_softmax rs).
Proof.
  intros Hne. unfold x_softmax, r_softmax.
  rewrite x_maximum_Num, exps_Num, x_sum_Num, !map_map.
  apply map_ext. intros y. apply xdiv_Num.
  pose proof (r_softmax_denominator Hne). lra.
Qed.

Lemma x_softmax_sum (rs : list R) :
  rs <> [] -> x_sum (x_softmax (map Num rs)) = Num 1.
Proof.
  intros Hne. rewrite x_softmax_Num, x_sum_Num, r_softmax_sum; auto.
Qed.

(** *** The one-hot sample *)





(** ** What a step leaves alone, for any tensor library *)

Section Frame.

Context {E : Etl}.
Variable d : Desc.
Variables (x_a x_s y_a y_s bias t : tensor) (wt : matrix) (g : rng).

Lemma activate_hidden_returns (P S : bool) (o : outs E) :
  activate_hidden d P S x_a x_s y_a y_s bias wt t g = Some o ->
  o = activate_hidden_writes d P S x_a x_s y_a y_s bias wt t g.
Proof. intros H. apply checked_Some in H. tauto. Qed.

Lemma activate_visible_returns (P S : bool) (o : outs E) :
  activate_visible d P S x_a x_s y_a y_s bias wt t g = Some o ->
  o = activate_visible_writes d P S x_a x_s y_a y_s bias wt t g.
Proof. intros H. apply checked_Some in H. tauto. Qed.

Lemma hidden_flags_off (P S : bool) :
  let o := activate_hidden_writes d P S x_a x_s y_a y_s bias wt t g in
  (S = false -> out_s o = x_s /\ out_g o = g)
  /\ (P = false -> out_a o = x_a)
  /\ (P = false -> S = false -> out_t o = t).
Proof.
  unfold activate_hidden_writes.
  destruct P, S, (hidden_unit d); cbn; repeat split; intros;
    try discriminate; reflexivity.
Qed.

Lemma visible_flags_off (P S : bool) :
  let o := activate_visible_writes d P S x_a x_s y_a y_s bias wt t g in
  (S = false -> out_s o = y_s /\ out_g o = g)
  /\ (P = false -> out_a o = y_a)
  /\ (P = false -> S = false -> out_t o = t).
Proof.
  unfold activate_visible_writes.
  destruct P, S, (visible_unit d); cbn; repeat split; intros;
    try discriminate; reflexivity.
Qed.

(** The visible step recomputes the pre-activation for the sample: what it
    writes as the sample does not depend on [P]. *)
Lemma visible_sample_only_writes :
  let o1 := activate_visible_writes d false true x_a x_s y_a y_s bias wt t g in
  let o2 := activate_visible_writes d true true x_a x_s y_a y_s bias wt t g in
  out_s o1 = out_s o2 /\ out_t o1 = out_t o2 /\ out_g o1 = out_g o2.
Proof.
  unfold activate_visible_writes. destruct (visible_unit d); cbn; auto.
Qed.

Lemma hidden_draws_nothing (P S : bool) :
  hidden_draws (hidden_unit d) = false ->
  out_g (activate_hidden_writes d P S x_a x_s y_a y_s bias wt t g) = g.
Proof.
  unfold activate_hidden_writes.
  destruct P, S, (hidden_unit d); intros H; try discriminate H; reflexivity.
Qed.

Lemma visible_draws_nothing (P S : bool) :
  visible_draws (visible_unit d) = false ->
  out_g (activate_visible_writes d P S x_a x_s y_a y_s bias wt t g) = g.
Proof.
  unfold activate_visible_writes.
  destruct P, S, (visible_unit d); intros H; try discriminate H; reflexivity.
Qed.

(** With a branch for its unit type, the combined hidden step overwrites
    both buffers and the scratch: what it writes does not depend on what
    they held. *)
Lemma hidden_combined_overwrites (x_a' x_s' t' : tensor) :
  hidden_branch (hidden_unit d) = true ->
  activate_hidden_writes d true true x_a x_s y_a y_s bias wt t g
  = activate_hidden_writes d true true x_a' x_s' y_a y_s bias wt t' g.
Proof.
  unfold activate_hidden_writes.
  destruct (hidden_unit d); intros H; try discriminate H; reflexivity.
Qed.

(** The activation a hidden step writes depends on neither the sample
    buffer, the scratch nor the random engine. *)
Lemma hidden_activation_independent (S S' : bool) (x_s' t' : tensor)
    (g' : rng) :
  out_a (activate_hidden_writes d true S x_a x_s y_a y_s bias wt t g)
  = out_a (activate_hidden_writes d true S' x_a x_s' y_a y_s bias wt t' g').
Proof.
  unfold activate_hidden_writes.
  destruct S, S', (hidden_unit d); reflexivity.
Qed.

(** The two output tensors a step writes do not depend on the content of the
    scratch it is given. *)
Lemma hidden_scratch_irrelevant (P S : bool) (t' : tensor) :
  let o := activate_hidden_writes d P S x_a x_s y_a y_s bias wt t g in
  let o' := activate_hidden_writes d P S x_a x_s y_a y_s bias wt t' g in
  out_a o = out_a o' /\ out_s o = out_s o' /\ out_g o = out_g o'.
Proof.
  unfold activate_hidden_writes.
  destruct P, S, (hidden_unit d); cbn; auto.
Qed.

Lemma visible_scratch_irrelevant (P S : bool) (t' : tensor) :
  let o := activate_visible_writes d P S x_a x_s y_a y_s bias wt t g in
  let o' := activate_visible_writes d P S x_a x_s y_a y_s bias wt t' g in
  out_a o = out_a o' /\ out_s o = out_s o' /\ out_g o = out_g o'.
Proof.
  unfold activate_visible_writes.
  destruct P, S, (visible_unit d); cbn; auto.
Qed.

Lemma checked_same_tensors (o o' : outs E) :
  out_a o = out_a o' -> out_s o = out_s o' ->
  (checked o = None <-> checked o' = None).
Proof.
  intros Ha Hs. rewrite !checked_None, Ha, Hs. reflexivity.
Qed.

End Frame.

(** ** The flags, the random engine and the scratch *)

(** X2: a step leaves alone what its flags switch off.  With
    [computeSample] off, the step that returns has not touched the sample
    buffer and has drawn nothing from the random engine; with [computeProb]
    off it has not touched the activation buffer; with both off it has not
    touched the scratch either.  This holds for the hidden and for the
    visible step, whatever the unit type. *)
Theorem steps_respect_flags (E : Etl) (d : Desc) (P S : bool)
    (x_a x_s y_a y_s bias t : tensor) (wt : matrix) (g : rng) :
  (forall o, activate_hidden d P S x_a x_s y_a y_s bias wt t g = Some o ->
     (S = false -> out_s o = x_s /\ out_g o = g)
     /\ (P = false -> out_a o = x_a)
     /\ (P = false -> S = false -> out_t o = t))
  /\ (forall o, activate_visible d P S x_a x_s y_a y_s bias wt t g = Some o ->
        (S = false -> out_s o = y_s /\ out_g o = g)
        /\ (P = false -> out_a o = y_a)
        /\ (P = false -> S = false -> out_t o = t)).
Proof.
  split; intros o H.
  - apply activate_hidden_returns in H. subst o. apply hidden_flags_off.
  - apply activate_visible_returns in H. subst o. apply visible_flags_off.
Qed.

(** X3: the visible step recomputes the pre-activation for its sample, so
    the sample it returns is the same with and without [computeProb], and so
    are the state of the random engine and the scratch. *)
Theorem visible_sample_only_path_agrees (E : Etl) (d : Desc)
    (h_a h_s v_a v_s bias t : tensor) (wt : matrix) (g : rng)
    (o1 o2 : outs E) :
  activate_visible d false true h_a h_s v_a v_s bias wt t g = Some o1 ->
  activate_visible d true true h_a h_s v_a v_s bias wt t g = Some o2 ->
  out_s o1 = out_s o2 /\ out_g o1 = out_g o2 /\ out_t o1 = out_t o2.
Proof.
  intros H1 H2.
  apply activate_visible_returns in H1, H2. subst o1 o2.
  destruct (visible_sample_only_writes d h_a h_s v_a v_s bias t wt g)
    as (Hs & Ht & Hg).
  auto.
Qed.

(** X4: a Gibbs step can run the hidden step with the sample only: the
    visible step that follows, fed the buffers and the random engine the
    hidden step left, gives the same result after the sample-only hidden
    step as after the combined one. *)
Theorem gibbs_step_needs_sample_only (E : Etl) (d : Desc)
    (h_a h_s v_a v_s bias t : tensor) (wt : matrix) (g : rng)
    (o1 o2 : outs E) (P S : bool) (v_a' v_s' c' t' : tensor) :
  activate_hidden d false true h_a h_s v_a v_s bias wt t g = Some o1 ->
  activate_hidden d true true h_a h_s v_a v_s bias wt t g = Some o2 ->
  activate_visible d P S (out_a o1) (out_s o1) v_a' v_s' c' wt t' (out_g o1)
  = activate_visible d P S (out_a o2) (out_s o2) v_a' v_s' c' wt t' (out_g o2).
Proof.
  intros H1 H2.
  apply activate_hidden_returns in H1, H2. subst o1 o2.
  destruct (sample_only_writes d h_a h_s v_a v_s bias t wt g)
    as (Hs & _ & Hg).
  cbv zeta in Hs, Hg. rewrite Hs, Hg. reflexivity.
Qed.

(** X5: only BINARY and the rectified units draw from the random engine.
    A hidden step on a SOFTMAX or GAUSSIAN layer, and a visible step on any
    layer but BINARY and RELU, return with the engine in the state they
    found it in, whatever the flags. *)
Theorem deterministic_units_draw_nothing (E : Etl) (d : Desc) (P S : bool)
    (x_a x_s y_a y_s bias t : tensor) (wt : matrix) (g : rng) :
  (hidden_draws (hidden_unit d) = false ->
   forall o, activate_hidden d P S x_a x_s y_a y_s bias wt t g = Some o ->
             out_g o = g)
  /\ (visible_draws (visible_unit d) = false ->
      forall o, activate_visible d P S x_a x_s y_a y_s bias wt t g = Some o ->
                out_g o = g).
Proof.
  split; intros Hu o H.
  - apply activate_hidden_returns in H. subst o.
    apply hidden_draws_nothing, Hu.
  - apply activate_visible_returns in H. subst o.
    apply visible_draws_nothing, Hu.
Qed.

(** X6: the combined GAUSSIAN visible step returns exactly when the
    pre-activation [c + W h_s] holds finite values only, and then both
    outputs are that pre-activation, the scratch holds [W h_s] and nothing
    was drawn; otherwise it fails its assertion. *)
Theorem gaussian_visible_returns_iff_finite (E : Etl) (nv nh : nat)
    (hu : unit_type) (h_a h_s v_a v_s bias t : tensor) (wt : matrix)
    (g : rng) :
  activate_visible (mkDesc nv nh GAUSSIAN hu) true true
    h_a h_s v_a v_s bias wt t g
  = if nan_check_deep (bias + mvmul wt h_s)%etl
    then Some {| out_a := (bias + mvmul wt h_s)%etl;
                 out_s := (bias + mvmul wt h_s)%etl;
                 out_t := mvmul wt h_s;
                 out_g := g |}
    else None.
Proof.
  unfold activate_visible. rewrite checked_cases.
  unfold activate_visible_writes, auto_vmmul_mv, assign_a, assign_s.
  cbn [visible_unit unit_type_eqb out_a out_s out_t out_g fst snd].
  destruct (nan_check_deep (bias + mvmul wt h_s)%etl); reflexivity.
Qed.

(** X7: when the hidden unit type has a branch, the overload of
    [activation_probabilities] that fills a vector of the caller does not
    depend on what that vector held: it behaves as the overload that
    creates the vector. *)
Theorem activation_probabilities_overloads_agree (E : Etl) (d : Desc)
    (r : rbm E) (item result : tensor) (st : statics E) :
  hidden_branch (hidden_unit d) = true ->
  activation_probabilities_into d r item result st
  = activation_probabilities d r item st.
Proof.
  intros Hu.
  unfold activation_probabilities, activation_probabilities_into,
    activate_hidden_rbm, activate_hidden_static, activate_hidden.
  rewrite (hidden_combined_overwrites d result (next_s st) item item (b r)
             (hidden_t st true true) (w r) (rand_engine st)
             (repeat lit0 (output_size d)) (next_s st)
             (hidden_t st true true) Hu).
  reflexivity.
Qed.

(** X8: when the hidden unit type has no branch (GAUSSIAN), the features
    are never computed: whatever the sample, [activation_probabilities]
    returns the vector of zeros it created, and the overload that fills a
    vector of the caller returns that vector as it was. *)
Theorem activation_probabilities_no_branch (E : Etl) (d : Desc)
    (r : rbm E) (item result : tensor) (st : statics E) :
  hidden_branch (hidden_unit d) = false ->
  isfinite lit0 = true ->
  all_finite (next_s st) ->
  option_map fst (activation_probabilities d r item st)
  = Some (repeat lit0 (num_hidden d))
  /\ (all_finite result ->
      option_map fst (activation_probabilities_into d r item result st)
      = Some result).
Proof.
  intros Hu H0 Hs.
  assert (Hz : all_finite (repeat lit0 (num_hidden d))).
  { apply Forall_forall. intros x Hx. apply repeat_spec in Hx. now subst. }
  unfold activation_probabilities, activation_probabilities_into,
    activate_hidden_rbm, activate_hidden_static, activate_hidden, output_size.
  rewrite !hidden_no_branch_writes by exact Hu.
  split; [| intros Hr]; rewrite checked_finite; auto.
Qed.

(** X9: the features [activation_probabilities] returns depend on the
    model and the sample only: two calls that start from different static
    buffers and different states of the random engine, and both return,
    return the same vector. *)
Theorem activation_probabilities_ignores_statics (E : Etl) (d : Desc)
    (r : rbm E) (item result res1 res2 : tensor)
    (st1 st2 st1' st2' : statics E) :
  activation_probabilities_into d r item result st1 = Some (res1, st1') ->
  activation_probabilities_into d r item result st2 = Some (res2, st2') ->
  res1 = res2.
Proof.
  unfold activation_probabilities_into, activate_hidden_rbm,
    activate_hidden_static.
  intros H1 H2.
  destruct (activate_hidden d true true result (next_s st1) item item (b r)
              (w r) (hidden_t st1 true true) (rand_engine st1))
    as [o1 |] eqn:E1; [| discriminate H1].
  destruct (activate_hidden d true true result (next_s st2) item item (b r)
              (w r) (hidden_t st2 true true) (rand_engine st2))
    as [o2 |] eqn:E2; [| discriminate H2].
  injection H1 as <- _. injection H2 as <- _.
  apply activate_hidden_returns in E1, E2. subst o1 o2.
  apply hidden_activation_independent.
Qed.

(** X10: the overloads that take the scratch from the caller and those
    that use their own static scratch compute the same activation and the
    same sample, for the hidden and for the visible step: the content of
    the scratch on entry has no influence. *)
Theorem scratch_choice_is_irrelevant (E : Etl) (d : Desc) (P S : bool)
    (r : rbm E) (x_a x_s y_a y_s t : tensor) (st : statics E) :
  option_map (fun p => (fst (fst p), snd (fst p)))
    (activate_hidden_rbm d P S r x_a x_s y_a y_s st)
  = option_map (fun o => (out_a o, out_s o))
      (activate_hidden_rbm_t d P S r x_a x_s y_a y_s t (rand_engine st))
  /\ option_map (fun p => (fst (fst p), snd (fst p)))
       (activate_visible_rbm d P S r x_a x_s y_a y_s st)
     = option_map (fun o => (out_a o, out_s o))
         (activate_visible_rbm_t d P S r x_a x_s y_a y_s t (rand_engine st)).
Proof.
  unfold activate_hidden_rbm, activate_hidden_static, activate_hidden_rbm_t,
    activate_hidden, activate_visible_rbm, activate_visible_rbm_t,
    activate_visible.
  rewrite !checked_cases. split.
  - destruct (hidden_scratch_irrelevant d x_a x_s y_a y_s (b r)
                (hidden_t st P S) (w r) (rand_engine st) P S t)
      as (Ha & Hs & _).
    cbv zeta in Ha, Hs. rewrite Ha, Hs.
    destruct (_ && _); cbn; rewrite ?Ha, ?Hs; reflexivity.
  - destruct (visible_scratch_irrelevant d x_a x_s y_a y_s (c r)
                (visible_t st P S) (w r) (rand_engine st) P S t)
      as (Ha & Hs & _).
    cbv zeta in Ha, Hs. rewrite Ha, Hs.
    destruct (_ && _); cbn; rewrite ?Ha, ?Hs; reflexivity.
Qed.

(** X11: computing the hidden probabilities is idempotent: running the
    probabilities-only hidden step again, on the buffers, scratch and random
    engine it has just returned, returns the very same state. *)
Theorem probabilities_only_is_idempotent (E : Etl) (d : Desc)
    (h_a h_s v_a v_s bias t : tensor) (wt : matrix) (g : rng) (o : outs E) :
  activate_hidden d true false h_a h_s v_a v_s bias wt t g = Some o ->
  activate_hidden d true false (out_a o) (out_s o) v_a v_s bias wt
    (out_t o) (out_g o) = Some o.
Proof.
  intros H. apply checked_Some in H. destruct H as (-> & Ha & Hs).
  unfold activate_hidden.
  set (o := activate_hidden_writes d true false h_a h_s v_a v_s bias wt t g)
    in *.
  assert (Ho : activate_hidden_writes d true false (out_a o) (out_s o)
                 v_a v_s bias wt (out_t o) (out_g o) = o).
  { subst o. unfold activate_hidden_writes.
    destruct (hidden_unit d); reflexivity. }
  rewrite Ho. apply checked_finite; assumption.
Qed.

(** Reduces a step on the extended reals to the tensor functions it
    calls. *)
Ltac step_cbn :=
  unfold auto_vmmul_vm, auto_vmmul_mv, assign_a, assign_s;
  cbn [out_a out_s out_t out_g fst snd unit_type_eqb hidden_unit visible_unit
       sigmoid max min softmax one_if_max bernoulli logistic_noise
       ranged_noise plus vmmul mvmul lit0 lit1 lit6 xreal_etl].

(** ** Bounds and divergence on the extended reals *)

Lemma hand_sigmoid_bounds (r : R) : (0 < 1 / (1 + exp (- r)) < 1)%R.
Proof.
  pose proof (exp_pos (- r)) as He.
  assert (Hpos : (0 < 1 + exp (- r))%R) by lra.
  split.
  - apply Rdiv_lt_0_compat; lra.
  - apply (Rmult_lt_reg_r (1 + exp (- r))); [exact Hpos |].
    unfold Rdiv. rewrite Rmult_assoc, Rinv_l by lra. lra.
Qed.

Lemma logistic_sigmoid_within (x : xreal) :
  xisfinite (logistic_sigmoid x) = true -> within 0 1 (logistic_sigmoid x).
Proof.
  unfold within. destruct x as [r | | |].
  - intros _. rewrite logistic_sigmoid_Num. eexists. split; [reflexivity |].
    pose proof (hand_sigmoid_bounds r). lra.
  - intros _. exists 1%R. split; [| lra].
    unfold logistic_sigmoid. cbn [xneg xexp xadd].
    rewrite xdiv_Num by lra. f_equal. lra.
  - intros _. exists 0%R. split; [reflexivity | lra].
  - intros H. discriminate H.
Qed.

(** X14: the activation of a BINARY layer is a probability: every element
    of the activation a BINARY hidden step or a BINARY visible step returns
    lies within [[0, 1]]. *)
Theorem binary_activation_is_a_probability (nv nh : nat) (u : unit_type)
    (S : bool) (x_a x_s y_a y_s bias t : list xreal)
    (wt : list (list xreal)) (g : tape) :
  (forall o : outs xreal_etl,
      activate_hidden (mkDesc nv nh u BINARY) true S
        x_a x_s y_a y_s bias wt t g = Some o ->
      Forall (within 0 1) (out_a o))
  /\ (forall o : outs xreal_etl,
        activate_visible (mkDesc nv nh BINARY u) true S
          x_a x_s y_a y_s bias wt t g = Some o ->
        Forall (within 0 1) (out_a o)).
Proof.
  split; intros o H; apply checked_Some in H; destruct H as (-> & Ha & _);
    revert Ha; destruct S; step_cbn;
    apply Forall_map_finite, logistic_sigmoid_within.
Qed.

(** X15: the RELU visible activation that [activate_visible] returns is
    [max(c + W h_s, 0)], and every element of it is at least 0. *)
Theorem relu_visible_activation_bounds (nv nh : nat) (hu : unit_type)
    (S : bool) (h_a h_s v_a v_s bias t : list xreal)
    (wt : list (list xreal)) (g : tape) (o : outs xreal_etl) :
  activate_visible (mkDesc nv nh RELU hu) true S h_a h_s v_a v_s bias wt t g
  = Some o ->
  out_a o = map (fun x => std_max x (Num 0)) (x_plus bias (x_mvmul wt h_s))
  /\ Forall (at_least 0) (out_a o).
Proof.
  intros H. apply checked_Some in H. destruct H as (-> & Ha & _).
  assert (Hw : out_a (activate_visible_writes (mkDesc nv nh RELU hu) true S
                        h_a h_s v_a v_s bias wt t g)
               = map (fun x => std_max x (Num 0))
                   (x_plus bias (x_mvmul wt h_s)))
    by (destruct S; reflexivity).
  rewrite Hw in *. split; [reflexivity |].
  apply Forall_map_finite; [apply relu_finite_at_least | exact Ha].
Qed.

Lemma relu_keeps_divergence (x : xreal) :
  x = PInf \/ x = NaN -> xisfinite (std_max x (Num 0)) = false.
Proof. intros [-> | ->]; reflexivity. Qed.

(** X1: a RELU hidden layer does not hide a diverged pre-activation: when
    an element of [b + v_a W] is [+inf] or NaN, [activate_hidden] with
    [computeProb] fails its assertion instead of returning. *)
Theorem relu_guard_catches_divergence (nv nh : nat) (vu : unit_type)
    (S : bool) (h_a h_s v_a v_s bias t : list xreal)
    (wt : list (list xreal)) (g : tape) (x : xreal) :
  In x (x_plus bias (x_vmmul v_a wt)) -> x = PInf \/ x = NaN ->
  activate_hidden (mkDesc nv nh vu RELU) true S h_a h_s v_a v_s bias wt t g
  = None.
Proof.
  intros Hin Hx. apply checked_None. intros [Ha _].
  assert (Hw : out_a (activate_hidden_writes (mkDesc nv nh vu RELU) true S
                        h_a h_s v_a v_s bias wt t g)
               = map (fun x => std_max x (Num 0))
                   (x_plus bias (x_vmmul v_a wt)))
    by (destruct S; reflexivity).
  rewrite Hw in Ha. unfold all_finite in Ha.
  rewrite Forall_map, Forall_forall in Ha. specialize (Ha x Hin).
  cbn [isfinite xreal_etl] in Ha.
  rewrite (relu_keeps_divergence Hx) in Ha. discriminate Ha.
Qed.

(** ** A BINARY layer squashes an infinite pre-activation *)

Lemma logistic_sigmoid_of_not_nan (x : xreal) :
  x <> NaN -> xisfinite (logistic_sigmoid x) = true.
Proof.
  destruct x as [r | | |]; intros Hx.
  - rewrite logistic_sigmoid_Num. reflexivity.
  - unfold logistic_sigmoid. cbn [xneg xexp xadd].
    rewrite xdiv_Num by lra. reflexivity.
  - reflexivity.
  - contradiction.
Qed.

Lemma map_draw_always_finite (f : xreal -> tape -> xreal * tape)
    (l : list xreal) (g : tape) :
  (forall x g, xisfinite (fst (f x g)) = true) ->
  finite (fst (map_draw f l g)).
Proof.
  intros Hf. revert g. induction l as [| x l IH]; intros g; [constructor |].
  cbn [map_draw]. specialize (Hf x g). destruct (f x g) as [y g1].
  specialize (IH g1). destruct (map_draw f l g1) as [r g2].
  constructor; assumption.
Qed.

Lemma x_bernoulli_always_finite (l : list xreal) (g : tape) :
  finite (fst (x_bernoulli l g)).
Proof.
  apply map_draw_always_finite. intros x g0. destruct (draw g0) as [u g'].
  cbn [fst]. destruct (xltb (Num u) x); reflexivity.
Qed.

(** X16: the stability guard of a BINARY hidden layer fires on NaN only.
    The logistic function sends [+inf] to 1 and [-inf] to 0, so a
    pre-activation that holds infinities but no NaN still gives a
    probability vector, and the step returns (given, when no sample is
    asked for, a finite sample buffer). *)
Theorem binary_guard_passes_infinity (nv nh : nat) (vu : unit_type)
    (S : bool) (h_a h_s v_a v_s bias t : list xreal)
    (wt : list (list xreal)) (g : tape) :
  Forall (fun x => x <> NaN) (x_plus bias (x_vmmul v_a wt)) ->
  (S = false -> finite h_s) ->
  exists o : outs xreal_etl,
    activate_hidden (mkDesc nv nh vu BINARY) true S
      h_a h_s v_a v_s bias wt t g = Some o
    /\ Forall (within 0 1) (out_a o).
Proof.
  intros Hz Hs.
  assert (Ha : finite (x_sigmoid (x_plus bias (x_vmmul v_a wt)))).
  { unfold x_sigmoid, all_finite. rewrite Forall_map.
    revert Hz. apply Forall_impl. exact logistic_sigmoid_of_not_nan. }
  eexists. split.
  - apply checked_finite.
    + destruct S; exact Ha.
    + destruct S; step_cbn;
        [apply x_bernoulli_always_finite | apply Hs; reflexivity].
  - destruct S; step_cbn;
      apply Forall_map_finite; try exact Ha; apply logistic_sigmoid_within.
Qed.

(** ** More concrete runs *)

Example gaussian_visible_sample_only_run (h_a : list xreal) :
  activate_visible (desc_2x2 GAUSSIAN BINARY) false true
    h_a [Num 1; Num 1] [Num 0; Num 0] [Num 0; Num 0] [Num 0; Num 0]
    w_2x2 [Num 0; Num 0] []
  = Some {| out_a := [Num 0; Num 0]; out_s := [Num 3; Num 7];
            out_t := [Num 3; Num 7]; out_g := [] |}.
Proof. run_engine. same_reals. Qed.

Example relu_visible_run (h_a : list xreal) :
  activate_visible (desc_2x2 RELU BINARY) true false
    h_a [Num 1; Num 1] [Num 0; Num 0] [Num 0; Num 0] [Num 0; Num 0]
    w_2x2 [Num 0; Num 0] []
  = Some {| out_a := [Num 3; Num 7]; out_s := [Num 0; Num 0];
            out_t := [Num 3; Num 7]; out_g := [] |}.
Proof. run_engine. same_reals. Qed.

Example facade_relu1_used_run :
  activation_probabilities_into (desc_1x1 BINARY RELU1) rbm_unit
    [Num 1] [Num 0] used_statics
  = Some ([Num 1],
          {| hidden_t := set_scratch (fun _ _ => [Num 4]) true true [Num 1];
             visible_t := fun _ _ => [Num 5];
             next_s := [Num 1];
             rand_engine := [(1/2)%R; (1/3)%R] |}).
Proof. run_engine. same_reals. Qed.

(** ** The properties at concrete inputs *)

(** X1 at the one-unit RELU model with an infinite weight. *)
Lemma relu_guard_catches_divergence_witness :
  activate_hidden (desc_1x1 BINARY RELU) true true
    [Num 0] [Num 0] [Num 1] [Num 1] [Num 0] [[PInf]] [Num 0] []
  = None.
Proof.
  apply (@relu_guard_catches_divergence 1 1 BINARY true [Num 0] [Num 0]
           [Num 1] [Num 1] [Num 0] [Num 0] [[PInf]] [] PInf).
  - cbv -[Rlt_dec IZR]. decide_reals. left. reflexivity.
  - left. reflexivity.
Defined.

(** X3 on the 2x2 GAUSSIAN model. *)
Lemma visible_sample_only_path_agrees_witness :
  exists o1 o2 : outs xreal_etl,
    activate_visible (desc_2x2 GAUSSIAN BINARY) false true
      [Num 1; Num 0] [Num 1; Num 1] [Num 0; Num 0] [Num 0; Num 0]
      [Num 0; Num 0] w_2x2 [Num 0; Num 0] [] = Some o1
    /\ activate_visible (desc_2x2 GAUSSIAN BINARY) true true
         [Num 1; Num 0] [Num 1; Num 1] [Num 0; Num 0] [Num 0; Num 0]
         [Num 0; Num 0] w_2x2 [Num 0; Num 0] [] = Some o2
    /\ out_s o1 = out_s o2.
Proof.
  do 2 eexists.
  split; [apply gaussian_visible_sample_only_run |].
  split; [apply gaussian_visible_run_11 |].
  exact (proj1 (@visible_sample_only_path_agrees _ _ _ _ _ _ _ _ _ _ _ _
                  (gaussian_visible_sample_only_run [Num 1; Num 0])
                  (gaussian_visible_run_11 [Num 1; Num 0]))).
Defined.

(** X4 after the two RELU6 hidden steps. *)
Lemma gibbs_step_needs_sample_only_witness :
  activate_visible (desc_1x1 BINARY RELU6) true true
    [Num 0] [Num (7/2)] [Num 0] [Num 0] [Num 0] [[Num 1]] [Num 0] []
  = activate_visible (desc_1x1 BINARY RELU6) true true
      [Num 3] [Num (7/2)] [Num 0] [Num 0] [Num 0] [[Num 1]] [Num 0] [].
Proof.
  exact (@gibbs_step_needs_sample_only _ _ _ _ _ _ _ _ _ _ _ _
           true true [Num 0] [Num 0] [Num 0] [Num 0]
           relu6_sample_only_run relu6_combined_run).
Defined.

(** X7 on the one-unit RELU1 model. *)
Lemma activation_probabilities_overloads_agree_witness :
  activation_probabilities_into (desc_1x1 BINARY RELU1) rbm_unit
    [Num 1] [Num 8] (zero_statics 1 1)
  = activation_probabilities (desc_1x1 BINARY RELU1) rbm_unit
      [Num 1] (zero_statics 1 1).
Proof.
  apply activation_probabilities_overloads_agree. reflexivity.
Defined.

(** X8 on a one-unit model with a GAUSSIAN hidden layer. *)
Lemma activation_probabilities_no_branch_witness :
  option_map fst
    (activation_probabilities (desc_1x1 BINARY GAUSSIAN) rbm_unit
       [Num 1] (zero_statics 1 1))
  = Some [Num 0]
  /\ option_map fst
       (activation_probabilities_into (desc_1x1 BINARY GAUSSIAN) rbm_unit
          [Num 1] [Num 5] (zero_statics 1 1))
     = Some [Num 5].
Proof.
  destruct (@activation_probabilities_no_branch xreal_etl
              (desc_1x1 BINARY GAUSSIAN) rbm_unit [Num 1] [Num 5]
              (zero_statics 1 1) eq_refl eq_refl)
    as [H1 H2].
  - repeat constructor.
  - split; [exact H1 | apply H2; repeat constructor].
Defined.

(** X9 on the one-unit RELU1 model, from fresh and from used statics. *)
Lemma activation_probabilities_ignores_statics_witness :
  exists (res1 res2 : list xreal) (st1 st2 : statics xreal_etl),
    activation_probabilities_into (desc_1x1 BINARY RELU1) rbm_unit
      [Num 1] [Num 0] (zero_statics 1 1) = Some (res1, st1)
    /\ activation_probabilities_into (desc_1x1 BINARY RELU1) rbm_unit
         [Num 1] [Num 0] used_statics = Some (res2, st2)
    /\ res1 = res2.
Proof.
  do 4 eexists.
  split; [apply facade_relu1_run |].
  split; [apply facade_relu1_used_run |].
  exact (@activation_probabilities_ignores_statics _ _ _ _ _ _ _ _ _ _ _
           facade_relu1_run facade_relu1_used_run).
Defined.

(** X11 on the 4x3 model. *)
Lemma probabilities_only_is_idempotent_witness :
  activate_hidden desc_4x3 true false
    (x_sigmoid (x_plus b_4x3 (x_vmmul v_4x3 w_4x3)))
    [Num 0; Num 0; Num 0] v_4x3 v_4x3 b_4x3 w_4x3
    (x_vmmul v_4x3 w_4x3) []
  = Some {| out_a := x_sigmoid (x_plus b_4x3 (x_vmmul v_4x3 w_4x3));
            out_s := [Num 0; Num 0; Num 0];
            out_t := x_vmmul v_4x3 w_4x3;
            out_g := [] |}.
Proof.
  exact (@probabilities_only_is_idempotent _ _ _ _ _ _ _ _ _ _ _
           binary_4x3_run).
Defined.

(** X15 on the 2x2 model with RELU visible units. *)
Lemma relu_visible_activation_bounds_witness :
  exists o : outs xreal_etl,
    activate_visible (desc_2x2 RELU BINARY) true false
      [Num 1; Num 0] [Num 1; Num 1] [Num 0; Num 0] [Num 0; Num 0]
      [Num 0; Num 0] w_2x2 [Num 0; Num 0] [] = Some o
    /\ out_a o
       = map (fun x => std_max x (Num 0))
           (x_plus [Num 0; Num 0] (x_mvmul w_2x2 [Num 1; Num 1]))
    /\ Forall (at_least 0) (out_a o).
Proof.
  eexists. split; [apply relu_visible_run |].
  exact (@relu_visible_activation_bounds 2 2 BINARY false _ _ _ _ _ _ _ _ _
           (relu_visible_run [Num 1; Num 0])).
Defined.

(** X16 on the one-unit BINARY model with an infinite weight. *)
Lemma binary_guard_passes_infinity_witness :
  exists o : outs xreal_etl,
    activate_hidden (desc_1x1 BINARY BINARY) true true
      [Num 0] [Num 0] [Num 1] [Num 1] [Num 0] [[PInf]] [Num 0] [] = Some o
    /\ Forall (within 0 1) (out_a o).
Proof.
  apply (@binary_guard_passes_infinity 1 1 BINARY true).
  - cbv -[Rlt_dec IZR]. decide_reals. repeat constructor. discriminate.
  - discriminate.
Defined.

(** ** SOFTMAX hidden units, whenever the step returns *)

(** *** The order on the values that are not NaN *)







(** *** A softmax that is finite sums to 1 *)









